(** * ngx-fetcher-with-etag: the fetch / cache / poll engine, its stream and
      the local index overlay

    A shallow embedding of
    - [FetcherWithEtag] (fetcher-with-etag.ts),
    - [PollingSubject] (subjects/polling-subject.ts),
    - [createById], [dataLoaderBatchFromIds] (dataloader/dataloader-batch.ts),
    - [LocalDataLoader] (dataloader/local-dataloader.ts),
    - [LocalDataLoaderEtagService] (dataloader/local-dataloader-etag.ts).

    Conventions of the embedding.
    - Timestamps and durations are integral milliseconds ([Z]); the only
      non-integral number the engine can hold is the [NaN] that
      [new Date(s).getTime()] yields for an unparsable [s].
    - [null] and [undefined] are [None].
    - An [async] method is cut at its [await]: [*_begin] is the part that runs
      synchronously, [*_resume] the continuation that runs once the transport
      has answered.  The answer of the transport is an input.
    - Every observable effect (stream emissions, requests, converter calls,
      timers) is appended to the [log] of the engine, oldest first.
    - The identifier index is the plain object the code builds: own
      properties, a prototype, and identifiers turned into property keys
      ([JSObject]). *)

From Stdlib Require Import ZArith Lia Bool.
From stdpp Require Import base option list strings gmap pretty.

Local Open Scope string_scope.
Local Open Scope list_scope.
Local Open Scope Z_scope.

(** ** JavaScript values the engine relies on *)

Module JS.

(** A [number] as the engine meets it. *)
Inductive number : Type :=
| NaN
| Num (z : Z).

(** [ToBoolean] on numbers: [0] and [NaN] are falsy. *)
Definition truthy_number (n : number) : bool :=
  match n with
  | NaN => false
  | Num z => negb (z =? 0)
  end.

Definition truthy_Z (z : Z) : bool := negb (z =? 0).

(** [ToBoolean] on strings: only the empty string is falsy. *)
Definition truthy_string (s : string) : bool := negb (String.eqb s "").

(** [x && ...] / [!x] on a nullable: [null] and [undefined] are falsy. *)
Definition truthy_opt {A} (truthy : A -> bool) (o : option A) : bool :=
  match o with
  | Some a => truthy a
  | None => false
  end.

(** [x !== undefined] *)
Definition defined {A} (o : option A) : bool :=
  match o with
  | Some _ => true
  | None => false
  end.

End JS.
Import JS.

(** ** HTTP vocabulary (\@angular/common/http) *)

(** Header sets; [get] answers the first value stored under a name.  Names
    are compared as written: the engine only ever asks for ["ETag"] and
    ["Expires"]. *)
Definition HttpHeaders : Type := list (string * string).

Fixpoint headers_get (h : HttpHeaders) (name : string) : option string :=
  match h with
  | [] => None
  | (n, v) :: h' => if String.eqb n name then Some v else headers_get h' name
  end.

Definition headers_set (h : HttpHeaders) (name value : string) : HttpHeaders :=
  (name, value) :: filter (fun p => String.eqb (fst p) name = false) h.

Definition HttpStatusCode_Ok : Z := 200.
Definition HttpStatusCode_NotModified : Z := 304.

(** What can be thrown, or reject a promise. *)
Inductive JsError : Type :=
| UrlNotSetError                                      (* new Error('url is not set') *)
| UnexpectedResponseError (status : Z) (url : string) (* new Error(`unexpected response ...`) *)
| HttpErrorResponse (status : Z) (headers : HttpHeaders)
| ObjectUnsubscribedError                             (* rxjs, on a closed Subject *)
| OtherError (message : string).

(** [e instanceof HttpErrorResponse] *)
Definition instanceof_HttpErrorResponse (e : JsError) : bool :=
  match e with
  | HttpErrorResponse _ _ => true
  | _ => false
  end.

(** How a promise settles. *)
Inductive Settlement (A : Type) : Type :=
| Resolve (a : A)
| Reject (e : JsError).
Arguments Resolve {A} a.
Arguments Reject {A} e.

(** Where an [async] call stands when control returns to the event loop. *)
Inductive Phase (A : Type) : Type :=
| Settled (s : Settlement A)
| AwaitingResponse.
Arguments Settled {A} s.
Arguments AwaitingResponse {A}.

(** ** The multicast primitive: rxjs 7.8.1 [Subject]

    [PollingSubject] extends the [Subject] of rxjs (the source names release
    7.8.1).  The part of that class the repository relies on: the observer
    list, the [closed] / [isStopped] / [hasError] flags, and the methods
    [next], [error], [unsubscribe], [_subscribe] and the teardown of the
    [Subscription] that [_subscribe] hands out.  Subscribers are named by
    numbers. *)

Module Rx.

Record Subject : Type := mkSubject {
  observers : list nat;
  isStopped : bool;
  hasError : bool;
  thrownError : option JsError;
  closed : bool
}.

Definition new_Subject : Subject :=
  {| observers := []; isStopped := false; hasError := false;
     thrownError := None; closed := false |}.

(** [get observed() { return this.observers?.length > 0 }] *)
Definition observed (s : Subject) : bool :=
  match observers s with
  | [] => false
  | _ :: _ => true
  end.

(** What a call on a subject does to the outside. *)
Inductive Notification (T : Type) : Type :=
| NextTo (who : list nat) (v : T)
| ErrorTo (who : list nat) (e : JsError)
| CompleteTo (who : list nat).
Arguments NextTo {T} who v.
Arguments ErrorTo {T} who e.
Arguments CompleteTo {T} who.

(** [next(value)]: throws on a closed subject, is silent on a stopped one,
    otherwise hands [value] to every current observer. *)
Definition next {T} (s : Subject) (v : T)
  : JsError + (Subject * list (Notification T)) :=
  if closed s then inl ObjectUnsubscribedError
  else if isStopped s then inr (s, [])
  else inr (s, [NextTo (observers s) v]).

(** [error(err)]: throws on a closed subject, is silent on a stopped one,
    otherwise stops the subject for good and drains the observer list. *)
Definition error {T} (s : Subject) (e : JsError)
  : JsError + (Subject * list (Notification T)) :=
  if closed s then inl ObjectUnsubscribedError
  else if isStopped s then inr (s, [])
  else inr ({| observers := []; isStopped := true; hasError := true;
               thrownError := Some e; closed := false |},
            [ErrorTo (observers s) e]).

(** [unsubscribe()] of the subject itself: closes it and drops the
    observers.  It is not what runs when a subscriber leaves. *)
Definition unsubscribe (s : Subject) : Subject :=
  {| observers := []; isStopped := true; hasError := hasError s;
     thrownError := thrownError s; closed := true |}.

(** [_subscribe(subscriber)]: [_throwIfClosed]; [_checkFinalizedStatuses];
    [_innerSubscribe].  The boolean is [subscription.closed]. *)
Definition _subscribe {T} (s : Subject) (subscriber : nat)
  : JsError + (Subject * bool * list (Notification T)) :=
  if closed s then inl ObjectUnsubscribedError
  else
    let finalized :=
      if hasError s then
        match thrownError s with
        | Some e => [ErrorTo [subscriber] e]
        | None => []
        end
      else if isStopped s then [CompleteTo [subscriber]]
      else [] in
    if hasError s || isStopped s then inr (s, true, finalized)
    else inr ({| observers := observers s ++ [subscriber];
                 isStopped := isStopped s; hasError := hasError s;
                 thrownError := thrownError s; closed := closed s |},
              false, finalized).

(** [arrRemove(observers, subscriber)] *)
Fixpoint arrRemove (l : list nat) (x : nat) : list nat :=
  match l with
  | [] => []
  | y :: l' => if Nat.eqb y x then l' else y :: arrRemove l' x
  end.

(** The teardown of the [Subscription] returned by [_innerSubscribe]; this
    is what [subscription.unsubscribe()] of a subscriber runs. *)
Definition Subscription_unsubscribe (s : Subject) (subscriber : nat) : Subject :=
  {| observers := arrRemove (observers s) subscriber;
     isStopped := isStopped s; hasError := hasError s;
     thrownError := thrownError s; closed := closed s |}.

End Rx.

(** ** The cache-and-poll engine: [FetcherWithEtag<T, RawT>] *)

(** The transport's answer to [httpClient.get(url, { headers, observe: 'response' })]. *)
Record HttpResponse (RawT : Type) : Type := mkResponse {
  status : Z;
  headers : HttpHeaders;
  body : option RawT
}.
Arguments mkResponse {RawT} status headers body.
Arguments status {RawT} h.
Arguments headers {RawT} h.
Arguments body {RawT} h.

Inductive Outcome (RawT : Type) : Type :=
| Responded (r : HttpResponse RawT)   (* [lastValueFrom] resolves *)
| Failed (e : JsError).               (* [lastValueFrom] rejects  *)
Arguments Responded {RawT} r.
Arguments Failed {RawT} e.

(** What the engine is given and does not own: the constructor's [converter],
    [isEqual] and [authProvider], and two facts of the runtime, how
    [new Date(s).getTime()] reads a date ([None] for an invalid date) and
    which raw bodies are falsy. *)
Record Collaborators (T RawT : Type) : Type := mkCollaborators {
  converter : RawT -> JsError + T;
  isEqual : T -> T -> bool;
  getAuthHeaders : HttpHeaders;
  Date_getTime : string -> option Z;
  truthy_body : RawT -> bool
}.
Arguments converter {T RawT} c raw.
Arguments isEqual {T RawT} c currentValue newValue.
Arguments getAuthHeaders {T RawT} c.
Arguments Date_getTime {T RawT} c s.
Arguments truthy_body {T RawT} c raw.

(** The ghost trace. *)
Inductive Event (T RawT : Type) : Type :=
| LoadingNext (b : bool)                       (* loadingSubject.next(b) *)
| HttpGet (url : string) (h : HttpHeaders)     (* httpClient.get(url, ...) *)
| ConverterCall (raw : RawT)                   (* this.converter(raw) *)
| DataNext (v : T)                             (* dataSubject.next(v), not stopped *)
| DataError (e : JsError)                      (* dataSubject.error(e), not stopped *)
| SubscriberNext (subscriber : nat) (v : T)    (* subscriber.next(v) on subscribe *)
| SubscriberError (subscriber : nat) (e : JsError)
| SubscriberComplete (subscriber : nat)
| StartPolling                                 (* this.startPolling() *)
| EndPolling                                   (* this.endPolling() *)
| SetTimeout (delay : Z)
| ClearTimeout.
Arguments LoadingNext {T RawT} b.
Arguments HttpGet {T RawT} url h.
Arguments ConverterCall {T RawT} raw.
Arguments DataNext {T RawT} v.
Arguments DataError {T RawT} e.
Arguments SubscriberNext {T RawT} subscriber v.
Arguments SubscriberError {T RawT} subscriber e.
Arguments SubscriberComplete {T RawT} subscriber.
Arguments StartPolling {T RawT}.
Arguments EndPolling {T RawT}.
Arguments SetTimeout {T RawT} delay.
Arguments ClearTimeout {T RawT}.

(** The instance fields.  [pollingTimeout] holds the delay the armed timer
    was given; [loading] is the current value of [loadingSubject]. *)
Record Fetcher (T RawT : Type) : Type := mkFetcher {
  url : string;
  etag : option string;
  expires : option number;
  lastFetchTimestamp : option Z;
  value : option T;
  pollingTimeout : option Z;
  refreshInterval : option Z;
  fetchRefreshesWithoutInterval : bool;
  dataSubject : Rx.Subject;
  loading : bool;
  log : list (Event T RawT)
}.
Arguments mkFetcher {T RawT}.
Arguments url {T RawT} f.
Arguments etag {T RawT} f.
Arguments expires {T RawT} f.
Arguments lastFetchTimestamp {T RawT} f.
Arguments value {T RawT} f.
Arguments pollingTimeout {T RawT} f.
Arguments refreshInterval {T RawT} f.
Arguments fetchRefreshesWithoutInterval {T RawT} f.
Arguments dataSubject {T RawT} f.
Arguments loading {T RawT} f.
Arguments log {T RawT} f.

Section Engine.

Context {T RawT : Type}.
Variable deps : Collaborators T RawT.

Local Abbreviation Fetcher := (Fetcher T RawT).
Local Abbreviation Event := (Event T RawT).

(** [new FetcherWithEtag(http, auth, url, converter, isEqual, refreshInterval?,
    fetchRefreshesWithoutInterval = false)] *)
Definition new_Fetcher (u : string) (ri : option Z) (frwi : bool) : Fetcher :=
  mkFetcher u None None None None None ri frwi Rx.new_Subject false [].

(** Field assignments. *)
Definition set_etag (f : Fetcher) (x : option string) : Fetcher :=
  mkFetcher (url f) x (expires f) (lastFetchTimestamp f) (value f)
    (pollingTimeout f) (refreshInterval f) (fetchRefreshesWithoutInterval f)
    (dataSubject f) (loading f) (log f).
Definition set_expires (f : Fetcher) (x : option number) : Fetcher :=
  mkFetcher (url f) (etag f) x (lastFetchTimestamp f) (value f)
    (pollingTimeout f) (refreshInterval f) (fetchRefreshesWithoutInterval f)
    (dataSubject f) (loading f) (log f).
Definition set_lastFetchTimestamp (f : Fetcher) (x : option Z) : Fetcher :=
  mkFetcher (url f) (etag f) (expires f) x (value f)
    (pollingTimeout f) (refreshInterval f) (fetchRefreshesWithoutInterval f)
    (dataSubject f) (loading f) (log f).
Definition set_value (f : Fetcher) (x : option T) : Fetcher :=
  mkFetcher (url f) (etag f) (expires f) (lastFetchTimestamp f) x
    (pollingTimeout f) (refreshInterval f) (fetchRefreshesWithoutInterval f)
    (dataSubject f) (loading f) (log f).
Definition set_url (f : Fetcher) (x : string) : Fetcher :=
  mkFetcher x (etag f) (expires f) (lastFetchTimestamp f) (value f)
    (pollingTimeout f) (refreshInterval f) (fetchRefreshesWithoutInterval f)
    (dataSubject f) (loading f) (log f).
Definition set_pollingTimeout (f : Fetcher) (x : option Z) : Fetcher :=
  mkFetcher (url f) (etag f) (expires f) (lastFetchTimestamp f) (value f)
    x (refreshInterval f) (fetchRefreshesWithoutInterval f)
    (dataSubject f) (loading f) (log f).
Definition set_dataSubject (f : Fetcher) (x : Rx.Subject) : Fetcher :=
  mkFetcher (url f) (etag f) (expires f) (lastFetchTimestamp f) (value f)
    (pollingTimeout f) (refreshInterval f) (fetchRefreshesWithoutInterval f)
    x (loading f) (log f).
Definition emit (f : Fetcher) (es : list Event) : Fetcher :=
  mkFetcher (url f) (etag f) (expires f) (lastFetchTimestamp f) (value f)
    (pollingTimeout f) (refreshInterval f) (fetchRefreshesWithoutInterval f)
    (dataSubject f) (loading f) (log f ++ es).

(** [this.loadingSubject.next(b)] *)
Definition loadingSubject_next (f : Fetcher) (b : bool) : Fetcher :=
  mkFetcher (url f) (etag f) (expires f) (lastFetchTimestamp f) (value f)
    (pollingTimeout f) (refreshInterval f) (fetchRefreshesWithoutInterval f)
    (dataSubject f) b (log f ++ [LoadingNext b]).

(** [getValue()] *)
Definition getValue (f : Fetcher) : option T := value f.

(** [const isValidExpiration = this.expires && this.expires > now] *)
Definition isValidExpiration (f : Fetcher) (now : Z) : bool :=
  match expires f with
  | Some (Num e) => truthy_Z e && (e >? now)
  | Some NaN => false
  | None => false
  end.

(** [this.expires! - now], read only under [isValidExpiration] *)
Definition expires_minus (f : Fetcher) (now : Z) : Z :=
  match expires f with
  | Some (Num e) => e - now
  | _ => 0
  end.

(** [const isValidRefreshInterval = this.lastFetchTimestamp &&
    this.refreshInterval && this.lastFetchTimestamp + this.refreshInterval > now] *)
Definition isValidRefreshInterval (f : Fetcher) (now : Z) : bool :=
  match lastFetchTimestamp f, refreshInterval f with
  | Some l, Some r => truthy_Z l && truthy_Z r && (l + r >? now)
  | _, _ => false
  end.

(** [this.lastFetchTimestamp! + this.refreshInterval - now] *)
Definition refresh_minus (f : Fetcher) (now : Z) : Z :=
  match lastFetchTimestamp f, refreshInterval f with
  | Some l, Some r => l + r - now
  | _, _ => 0
  end.

(** [getRefreshIntervalInMilliseconds()]; [now] is its [Date.now()], and
    [None] is [undefined]. *)
Definition getRefreshIntervalInMilliseconds (f : Fetcher) (now : Z) : option Z :=
  let interval := 0 in
  let interval :=
    if isValidExpiration f now then expires_minus f now else interval in
  let interval :=
    if isValidRefreshInterval f now then
      let refreshInterval := refresh_minus f now in
      if (interval =? 0) || (interval >? refreshInterval)
      then refreshInterval else interval
    else interval in
  let isInvalidInterval :=
    (interval =? 0)
    && defined (value f)
    && negb (truthy_opt truthy_number (expires f))
    && negb (truthy_opt truthy_Z (refreshInterval f)) in
  if isInvalidInterval then None else Some interval.

(** [new Date(s).getTime()] *)
Definition Date_getTime_number (s : string) : number :=
  match Date_getTime deps s with
  | Some t => Num t
  | None => NaN
  end.

(** [createExpires(expiresString)] *)
Definition createExpires (expiresString : option string) : option number :=
  match expiresString with
  | Some s => if truthy_string s then Some (Date_getTime_number s) else None
  | None => None
  end.

(** [getHeaders()] *)
Definition getHeaders (f : Fetcher) : HttpHeaders :=
  let authHeaders := getAuthHeaders deps in
  match etag f with
  | Some e =>
      if truthy_string e then headers_set authHeaders "If-None-Match" e
      else authHeaders
  | None => authHeaders
  end.

(** [this.dataSubject.next(v)] seen from the engine. *)
Definition dataSubject_next (f : Fetcher) (v : T) : JsError + Fetcher :=
  match Rx.next (dataSubject f) v with
  | inl e => inl e
  | inr (s, []) => inr (set_dataSubject f s)
  | inr (s, _ :: _) => inr (emit (set_dataSubject f s) [DataNext v])
  end.

(** [this.dataSubject.error(e)] seen from the engine. *)
Definition dataSubject_error (f : Fetcher) (e : JsError) : JsError + Fetcher :=
  match Rx.error (T := T) (dataSubject f) e with
  | inl e' => inl e'
  | inr (s, []) => inr (set_dataSubject f s)
  | inr (s, _ :: _) => inr (emit (set_dataSubject f s) [DataError e])
  end.

(** [fetch()], up to the [await]. *)
Definition fetch_begin (f : Fetcher) (now : Z) : Fetcher * Phase (option T) :=
  let interval := getRefreshIntervalInMilliseconds f now in
  if negb (defined interval) && negb (fetchRefreshesWithoutInterval f) then
    (f, Settled (Resolve (value f)))
  else if default 0 interval >? 0 then
    (f, Settled (Resolve (value f)))
  else if negb (truthy_string (url f)) then
    (f, Settled (Reject UrlNotSetError))
  else
    let headers := getHeaders f in
    let f := loadingSubject_next f true in
    (emit f [HttpGet (url f) headers], AwaitingResponse).

(** [fetch()], from the [await] on; [now] is the second [Date.now()]. *)
Definition fetch_resume (f : Fetcher) (o : Outcome RawT) (now : Z)
  : Fetcher * Settlement (option T) :=
  match o with
  | Failed e => (f, Reject e)
  | Responded response =>
      let f := loadingSubject_next f false in
      if negb (status response =? HttpStatusCode_Ok)
         && negb (status response =? HttpStatusCode_NotModified)
      then (f, Reject (UnexpectedResponseError (status response) (url f)))
      else
        let f := set_etag f (headers_get (headers response) "ETag") in
        let f := set_lastFetchTimestamp f (Some now) in
        let f := set_expires f (createExpires (headers_get (headers response) "Expires")) in
        if status response =? HttpStatusCode_NotModified then
          (f, Resolve (value f))
        else if negb (truthy_opt (truthy_body deps) (body response)) then
          (f, Resolve (value f))
        else
          match body response with
          | None => (f, Resolve (value f))
          | Some raw =>
              let f := emit f [ConverterCall raw] in
              match converter deps raw with
              | inl e => (f, Reject e)
              | inr newValue =>
                  let changed :=
                    match value f with
                    | None => true
                    | Some v => negb (isEqual deps v newValue)
                    end in
                  if changed then
                    let f := set_value f (Some newValue) in
                    match dataSubject_next f newValue with
                    | inl e => (f, Reject e)
                    | inr f => (f, Resolve (value f))
                    end
                  else (f, Resolve (value f))
              end
          end
  end.

(** One whole [fetch()]: [now1] is read on entry, the transport answers
    [o], [now2] is read once it has. *)
Definition fetch (f : Fetcher) (now1 : Z) (o : Outcome RawT) (now2 : Z)
  : Fetcher * Settlement (option T) :=
  match fetch_begin f now1 with
  | (f, Settled s) => (f, s)
  | (f, AwaitingResponse) => fetch_resume f o now2
  end.

(** The engine right after a [200] / [304] response has been taken in:
    loading is over, and [etag], [lastFetchTimestamp] and [expires] are those
    of the response. *)
Definition revalidated (f : Fetcher) (response : HttpResponse RawT) (now : Z)
  : Fetcher :=
  mkFetcher (url f)
    (headers_get (headers response) "ETag")
    (createExpires (headers_get (headers response) "Expires"))
    (Some now) (value f) (pollingTimeout f) (refreshInterval f)
    (fetchRefreshesWithoutInterval f) (dataSubject f) false
    (log f ++ [LoadingNext false]).

(** The engine right after the request has been issued. *)
Definition requesting (f : Fetcher) : Fetcher :=
  emit (loadingSubject_next f true) [HttpGet (url f) (getHeaders f)].

(** [this.value === undefined || !this.isEqual(this.value, newValue)] *)
Definition is_change (f : Fetcher) (newValue : T) : Prop :=
  value f = None
  \/ exists v, value f = Some v /\ isEqual deps v newValue = false.

(** The [catch] block of [refreshData()]; [now] is its [Date.now()]. *)
Definition refreshData_catch (f : Fetcher) (e : JsError) (now : Z)
  : Fetcher * Settlement unit :=
  match e with
  | HttpErrorResponse status headers =>
      if negb (status =? HttpStatusCode_NotModified) then
        match dataSubject_error f e with
        | inl e' => (f, Reject e')
        | inr f => (f, Resolve tt)
        end
      else
        let f := set_etag f (headers_get headers "ETag") in
        let f := set_lastFetchTimestamp f (Some now) in
        let expiresString := headers_get headers "Expires" in
        let f := set_expires f
                   (match expiresString with
                    | Some s => if truthy_string s
                                then Some (Date_getTime_number s) else None
                    | None => None
                    end) in
        (f, Resolve tt)
  | _ => (f, Resolve tt)   (* !(e instanceof HttpErrorResponse) *)
  end.

(** [refreshData()], up to the [await] inside [fetch()]. *)
Definition refreshData_begin (f : Fetcher) (now : Z) : Fetcher * Phase unit :=
  match fetch_begin f now with
  | (f, Settled (Resolve _)) => (f, Settled (Resolve tt))
  | (f, Settled (Reject e)) =>
      let (f, s) := refreshData_catch f e now in (f, Settled s)
  | (f, AwaitingResponse) => (f, AwaitingResponse)
  end.

(** [refreshData()], once the transport has answered: [now2] is read by
    [fetch()], [now3] by the [catch] block. *)
Definition refreshData_resume (f : Fetcher) (o : Outcome RawT) (now2 now3 : Z)
  : Fetcher * Settlement unit :=
  match fetch_resume f o now2 with
  | (f, Resolve _) => (f, Resolve tt)
  | (f, Reject e) => refreshData_catch f e now3
  end.

(** One whole [refreshData()]. *)
Definition refreshData (f : Fetcher) (now1 : Z) (o : Outcome RawT) (now2 now3 : Z)
  : Fetcher * Settlement unit :=
  match fetch f now1 o now2 with
  | (f, Resolve _) => (f, Resolve tt)
  | (f, Reject e) => refreshData_catch f e now3
  end.

(** [clearPollingTimeout()] *)
Definition clearPollingTimeout (f : Fetcher) : Fetcher :=
  match pollingTimeout f with
  | None => f
  | Some _ => set_pollingTimeout (emit f [ClearTimeout]) None
  end.

(** [clearTimeout(this.pollingTimeout); this.pollingTimeout = undefined] *)
Definition dropPollingTimeout (f : Fetcher) : Fetcher :=
  match pollingTimeout f with
  | None => f
  | Some _ => set_pollingTimeout (emit f [ClearTimeout]) None
  end.

(** [setupPollingTimeout()].  The [refreshData()] it may start is not
    awaited: only its synchronous part belongs to this call, and within one
    synchronous stretch the clock is read as one value. *)
Definition setupPollingTimeout (f : Fetcher) (now : Z) : Fetcher :=
  match getRefreshIntervalInMilliseconds f now with
  | None =>
      let f := dropPollingTimeout f in
      fst (refreshData_begin f now)
  | Some interval =>
      set_pollingTimeout (emit f [SetTimeout interval]) (Some interval)
  end.

(** [onPollingTimeout()], up to its [await]. *)
Definition onPollingTimeout_begin (f : Fetcher) (now : Z) : Fetcher * Phase unit :=
  if negb (Rx.observed (dataSubject f)) then
    (dropPollingTimeout f, Settled (Resolve tt))
  else refreshData_begin f now.

(** [onPollingTimeout()], after [await this.refreshData()] has resolved. *)
Definition onPollingTimeout_resume (f : Fetcher) (now : Z) : Fetcher :=
  if negb (Rx.observed (dataSubject f)) then dropPollingTimeout f
  else setupPollingTimeout f now.

(** The assignments that open [reset(newUrl?)]. *)
Definition reset_fields (f : Fetcher) (newUrl : option string) : Fetcher :=
  let f := set_etag f None in
  let f := set_expires f None in
  let f := set_lastFetchTimestamp f None in
  match newUrl with
  | Some u =>
      if truthy_string u && negb (String.eqb u (url f))
      then set_url (set_value f None) u
      else f
  | None => f
  end.

(** [reset(newUrl?)], up to the [await] of the [fetch()] it may start. *)
Definition reset_begin (f : Fetcher) (newUrl : option string) (now : Z)
  : Fetcher * Phase unit :=
  let f := reset_fields f newUrl in
  if defined (pollingTimeout f) then
    (setupPollingTimeout (clearPollingTimeout f) now, Settled (Resolve tt))
  else if Rx.observed (dataSubject f) then
    match fetch_begin f now with
    | (f, Settled (Resolve _)) => (f, Settled (Resolve tt))
    | (f, Settled (Reject e)) => (f, Settled (Reject e))
    | (f, AwaitingResponse) => (f, AwaitingResponse)
    end
  else (f, Settled (Resolve tt)).

(** [reset(newUrl?)], once its [fetch()] has been answered. *)
Definition reset_resume (f : Fetcher) (o : Outcome RawT) (now : Z)
  : Fetcher * Settlement unit :=
  match fetch_resume f o now with
  | (f, Resolve _) => (f, Resolve tt)
  | (f, Reject e) => (f, Reject e)
  end.

(** ** The demand-driven stream: [PollingSubject]

    [dataSubject] is built with [startPolling := setupPollingTimeout],
    [endPolling := clearPollingTimeout] and [getValue := getValue], all bound
    to the engine. *)

Definition log_notification (n : Rx.Notification T) : list Event :=
  match n with
  | Rx.NextTo who v => map (fun s => SubscriberNext s v) who
  | Rx.ErrorTo who e => map (fun s => SubscriberError s e) who
  | Rx.CompleteTo who => map SubscriberComplete who
  end.

(** [PollingSubject._subscribe(subscriber)]; the boolean is
    [subscription.closed]. *)
Definition PollingSubject__subscribe (f : Fetcher) (subscriber : nat) (now : Z)
  : Fetcher * (JsError + bool) :=
  let f :=
    if negb (Rx.observed (dataSubject f))
    then setupPollingTimeout (emit f [StartPolling]) now
    else f in
  match Rx._subscribe (dataSubject f) subscriber with
  | inl e => (f, inl e)
  | inr (s, subscription_closed, ns) =>
      let f := emit (set_dataSubject f s) (concat (map log_notification ns)) in
      if negb subscription_closed then
        match getValue f with
        | Some v => (emit f [SubscriberNext subscriber v], inr subscription_closed)
        | None => (f, inr subscription_closed)
        end
      else (f, inr subscription_closed)
  end.

(** [data$.subscribe(...)]: [Subject._trySubscribe] refuses a closed subject
    before [_subscribe] is reached. *)
Definition PollingSubject_subscribe (f : Fetcher) (subscriber : nat) (now : Z)
  : Fetcher * (JsError + bool) :=
  if Rx.closed (dataSubject f) then (f, inl ObjectUnsubscribedError)
  else PollingSubject__subscribe f subscriber now.

(** [PollingSubject.unsubscribe()] *)
Definition PollingSubject_unsubscribe (f : Fetcher) : Fetcher :=
  let f := set_dataSubject f (Rx.unsubscribe (dataSubject f)) in
  if negb (Rx.observed (dataSubject f))
  then clearPollingTimeout (emit f [EndPolling])
  else f.

(** A subscriber leaves: [subscription.unsubscribe()]. *)
Definition Subscription_unsubscribe (f : Fetcher) (subscriber : nat) : Fetcher :=
  set_dataSubject f (Rx.Subscription_unsubscribe (dataSubject f) subscriber).

(** What can be done to the stream from outside. *)
Inductive StreamOp : Type :=
| Subscribe (subscriber : nat) (now : Z)   (* s = data$.subscribe(...) *)
| Unsubscribe (subscriber : nat)           (* s.unsubscribe() *)
| UnsubscribeSubject.                      (* dataSubject.unsubscribe() *)

Definition stream_step (f : Fetcher) (op : StreamOp) : Fetcher :=
  match op with
  | Subscribe s now => fst (PollingSubject_subscribe f s now)
  | Unsubscribe s => Subscription_unsubscribe f s
  | UnsubscribeSubject => PollingSubject_unsubscribe f
  end.

Definition stream_run (f : Fetcher) (ops : list StreamOp) : Fetcher :=
  foldl stream_step f ops.

End Engine.

(** ** Plain objects used as maps

    [createById] fills the object literal [{}] by assignments [map[key] =
    entity], and the lookup objects read it back with [byId[id]].  Both go
    through the property protocol of an ordinary object:
    - the identifier is first turned into a property key, a number into its
      decimal string, so that [1] and ['1'] name the same property;
    - a read that finds no own property goes on to the prototype, which for
      [{}] is [Object.prototype];
    - the key ['__proto__'] is an accessor of [Object.prototype]: reading it
      answers the prototype of the object, assigning an object to it
      replaces the prototype and creates no own property.

    Conventions.  Entities are ordinary objects with writable data
    properties, none of their own named ['__proto__'], as object literals
    and [JSON.parse] of the usual payloads build them; numeric identifiers
    are integers below 10^21 in magnitude, which [Number::toString] prints
    in decimal digits; [Object.prototype] is the one the language
    defines. *)

Module JSObject.

(** An identifier value: [string | number | symbol]. *)
Inductive Id : Type :=
| IdString (s : string)
| IdNumber (n : Z)
| IdSymbol (n : nat).

(** A property key: a string or a symbol. *)
Inductive PropertyKey : Type :=
| KString (s : string)
| KSymbol (n : nat).

#[global] Instance Id_eq_dec : EqDecision Id.
Proof. solve_decision. Defined.

#[global] Instance PropertyKey_eq_dec : EqDecision PropertyKey.
Proof. solve_decision. Defined.

#[global] Instance PropertyKey_countable : Countable PropertyKey.
Proof.
  refine (inj_countable'
            (fun k => match k with KString s => inl s | KSymbol n => inr n end)
            (fun c => match c with inl s => KString s | inr n => KSymbol n end)
            _).
  intros [s|n]; reflexivity.
Defined.

(** [ToPropertyKey] on an identifier. *)
Definition ToPropertyKey (id : Id) : PropertyKey :=
  match id with
  | IdString s => KString s
  | IdNumber n => KString (pretty n)
  | IdSymbol n => KSymbol n
  end.

Definition proto_key : PropertyKey := KString "__proto__".

(** The function-valued properties of [Object.prototype]. *)
Definition Object_prototype_members : list string :=
  [ "constructor"; "hasOwnProperty"; "isPrototypeOf"; "propertyIsEnumerable";
    "toLocaleString"; "toString"; "valueOf";
    "__defineGetter__"; "__defineSetter__"; "__lookupGetter__";
    "__lookupSetter__" ].

(** What reading a property of a lookup object evaluates to, when it is not
    [undefined]: an entity stored there, a built-in of [Object.prototype],
    [Object.prototype] itself, or, when an entity has become the prototype,
    whatever [x[k]] is on that entity ([PropertyOf x k], left unevaluated:
    the model does not look inside entities). *)
Inductive Value (Item : Type) : Type :=
| Entity (x : Item)
| ObjectPrototypeMember (name : string)
| ObjectPrototype
| PropertyOf (x : Item) (k : PropertyKey).
Arguments Entity {Item} x.
Arguments ObjectPrototypeMember {Item} name.
Arguments ObjectPrototype {Item}.
Arguments PropertyOf {Item} x k.

(** An object that only ever receives entities: its own properties, and its
    prototype, [None] standing for [Object.prototype]. *)
Record Object (Item : Type) : Type := mkObject {
  own : gmap PropertyKey Item;
  prototype : option Item
}.
Arguments mkObject {Item} own prototype.
Arguments own {Item} o.
Arguments prototype {Item} o.

Section Protocol.

Context {Item : Type}.

(** [{}] *)
Definition empty_object : Object Item := mkObject ∅ None.

(** A read that has reached [Object.prototype]. *)
Definition Object_prototype_get (k : PropertyKey) : option (Value Item) :=
  match k with
  | KString s =>
      if String.eqb s "__proto__" then Some ObjectPrototype
      else if existsb (String.eqb s) Object_prototype_members
           then Some (ObjectPrototypeMember s)
           else None
  | KSymbol _ => None
  end.

(** A read that found no own property and goes on to the prototype [p]. *)
Definition inherited (p : option Item) (k : PropertyKey) : option (Value Item) :=
  match p with
  | None => Object_prototype_get k
  | Some x => if decide (k = proto_key) then Some (Entity x)
              else Some (PropertyOf x k)
  end.

(** [o[k]] *)
Definition OrdinaryGet (o : Object Item) (k : PropertyKey) : option (Value Item) :=
  match own o !! k with
  | Some x => Some (Entity x)
  | None => inherited (prototype o) k
  end.

(** [o[k] = x] *)
Definition OrdinarySet (o : Object Item) (k : PropertyKey) (x : Item) : Object Item :=
  if decide (k = proto_key) then mkObject (own o) (Some x)
  else mkObject (<[k := x]> (own o)) (prototype o).

End Protocol.

End JSObject.
Import JSObject.

(** ** The local index overlay *)

Section Overlay.

Context {Item : Type}.

(** [entity[idKey]] *)
Variable idKey : Item -> Id.

(** [createById(entities, idKey)]: a [reduce] that assigns [map[key] = entity]
    from left to right, starting from [{}]. *)
Definition createById (entities : list Item) : Object Item :=
  foldl (fun map entity =>
           let key := idKey entity in OrdinarySet map (ToPropertyKey key) entity)
        empty_object entities.

(** [dataLoaderBatchFromIds(ids, entities, idKey)] *)
Definition dataLoaderBatchFromIds (ids : list Id) (entities : list Item)
  : list (option (Value Item)) :=
  let lookupMap := createById entities in
  map (fun id => OrdinaryGet lookupMap (ToPropertyKey id)) ids.

(** [class LocalDataLoader<K, T>] *)
Record LocalDataLoader : Type := new_LocalDataLoader {
  byId : Object Item
}.

Definition load (dl : LocalDataLoader) (id : Id) : option (Value Item) :=
  OrdinaryGet (byId dl) (ToPropertyKey id).

(** [RawData]: [{ etag, [itemsKey]: Item[] }], and [Data = RawData & { byId }]. *)
Record RawData : Type := mkRawData {
  raw_etag : string;
  raw_items : list Item
}.

Record Data : Type := mkData {
  data_etag : string;
  data_items : list Item;
  data_byId : Object Item
}.

(** [LocalDataLoaderEtagService.converter(raw)]: [{ ...raw, byId }] *)
Definition service_converter (raw : RawData) : Data :=
  let byId := createById (raw_items raw) in
  mkData (raw_etag raw) (raw_items raw) byId.

(** [LocalDataLoaderEtagService.isEqual(currentValue, newValue)] *)
Definition service_isEqual (currentValue newValue : Data) : bool :=
  String.eqb (data_etag currentValue) (data_etag newValue).

(** The default [createLocalDataLoader]. *)
Definition createLocalDataLoader (byId : Object Item) : LocalDataLoader :=
  new_LocalDataLoader byId.

(** What [fetcher.data$] can send down the pipe. *)
Inductive Upstream : Type :=
| UpNext (v : Data)
| UpError (e : JsError).

(** [data$.pipe(map(({ byId }) => createLocalDataLoader(byId)),
    catchError(() => of(createLocalDataLoader({}))))]: what the pipe has
    sent after the upstream has sent [ns]. *)
Fixpoint dataLoader_emissions (ns : list Upstream) : list LocalDataLoader :=
  match ns with
  | [] => []
  | UpNext v :: ns' => createLocalDataLoader (data_byId v) :: dataLoader_emissions ns'
  | UpError _ :: _ => [createLocalDataLoader empty_object]
  end.

(** [shareReplay({ bufferSize: 1, ... })]: the lookup object a consumer
    holds after [ns], if any. *)
Definition current_dataLoader (ns : list Upstream) : option LocalDataLoader :=
  last (dataLoader_emissions ns).

(** [load(id)] on the lookup object in hand; absent when there is none. *)
Definition overlay_load (ns : list Upstream) (id : Id) : option (Value Item) :=
  match current_dataLoader ns with
  | Some dl => load dl id
  | None => None
  end.

(** The claim's words: the last item, in array order, whose identifier
    field equals [id]. *)
Definition last_with_id (id : Id) (items : list Item) : option Item :=
  last (filter (fun entity => idKey entity = id) items).

(** The last item, in array order, whose identifier names the property
    [k]. *)
Definition last_with_key (k : PropertyKey) (items : list Item) : option Item :=
  last (filter (fun entity => ToPropertyKey (idKey entity) = k) items).

(** No item is assigned to ['__proto__']. *)
Definition no_proto_key (items : list Item) : Prop :=
  Forall (fun entity => ToPropertyKey (idKey entity) <> proto_key) items.

End Overlay.

(** ** Freshness, in the words of the specification

    [expiryRemaining] and [refreshRemaining] are the two remaining durations;
    a field "is set" when it is not [null] / [undefined]. *)

Section FreshnessSpec.

Context {T RawT : Type}.

Definition expiryRemaining (f : Fetcher T RawT) (now : Z) : option Z :=
  match expires f with
  | Some (Num e) => if e >? now then Some (e - now) else None
  | _ => None
  end.

Definition refreshRemaining (f : Fetcher T RawT) (now : Z) : option Z :=
  match lastFetchTimestamp f, refreshInterval f with
  | Some l, Some r => if l + r - now >? 0 then Some (l + r - now) else None
  | _, _ => None
  end.

(** "neither an expiry nor a refresh interval is configured", both read as
    "is not null". *)
Definition nothing_configured (f : Fetcher T RawT) : bool :=
  negb (defined (expires f)) && negb (defined (refreshInterval f)).

(** The effective wait of the claim, over a notion of "nothing configured". *)
Definition effective_wait (unconfigured : Fetcher T RawT -> bool)
  (f : Fetcher T RawT) (now : Z) : option Z :=
  if defined (value f) && unconfigured f then None
  else
    match expiryRemaining f now, refreshRemaining f now with
    | Some a, Some b => Some (Z.min a b)
    | Some a, None => Some a
    | None, Some b => Some b
    | None, None => Some 0
    end.

(** No stored number is a zero or a [NaN]. *)
Definition no_falsy_number (f : Fetcher T RawT) : Prop :=
  expires f <> Some (Num 0) /\ expires f <> Some NaN
  /\ lastFetchTimestamp f <> Some 0
  /\ refreshInterval f <> Some 0.

End FreshnessSpec.

(** Reading [0] and [NaN] as "not set", the way [x && ...] and [!x] do. *)
Definition falsy_as_unset {T RawT : Type} (f : Fetcher T RawT) : Fetcher T RawT :=
  mkFetcher (url f) (etag f)
    (if truthy_opt truthy_number (expires f) then expires f else None)
    (if truthy_opt truthy_Z (lastFetchTimestamp f) then lastFetchTimestamp f else None)
    (value f) (pollingTimeout f)
    (if truthy_opt truthy_Z (refreshInterval f) then refreshInterval f else None)
    (fetchRefreshesWithoutInterval f) (dataSubject f) (loading f) (log f).

(** The endpoint cache state of two engines agrees: every field but the
    timer, the loading flag and the trace. *)
Definition same_cache {T RawT : Type} (f f' : Fetcher T RawT) : Prop :=
  url f' = url f
  /\ etag f' = etag f
  /\ expires f' = expires f
  /\ lastFetchTimestamp f' = lastFetchTimestamp f
  /\ value f' = value f
  /\ refreshInterval f' = refreshInterval f
  /\ fetchRefreshesWithoutInterval f' = fetchRefreshesWithoutInterval f
  /\ dataSubject f' = dataSubject f.

(** The events a call added to the trace. *)
Definition new_events {T RawT : Type} (before after : Fetcher T RawT)
  : list (Event T RawT) :=
  drop (length (log before)) (log after).

Definition is_DataNext {T RawT : Type} (e : Event T RawT) : bool :=
  match e with DataNext _ => true | _ => false end.
Definition is_ConverterCall {T RawT : Type} (e : Event T RawT) : bool :=
  match e with ConverterCall _ => true | _ => false end.
Definition is_EndPolling {T RawT : Type} (e : Event T RawT) : bool :=
  match e with EndPolling => true | _ => false end.

(** ** A concrete endpoint, for examples

    Values and raw payloads are strings; the converter rejects the payload
    ["malformed"]; two values are equal when they are the same string.  The
    date reader knows three HTTP-dates and nothing else. *)

Module Demo.

Definition Date_getTime (s : string) : option Z :=
  if String.eqb s "Thu, 01 Jan 1970 00:00:00 GMT" then Some 0
  else if String.eqb s "Thu, 01 Jan 1970 00:00:05 GMT" then Some 5000
  else if String.eqb s "Thu, 01 Jan 1970 00:01:00 GMT" then Some 60000
  else None.

Definition converter (raw : string) : JsError + string :=
  if String.eqb raw "malformed" then inl (OtherError "cannot convert")
  else inr raw.

Definition deps : Collaborators string string :=
  mkCollaborators string string converter String.eqb [] Date_getTime truthy_string.

Definition endpoint : string := "https://api.example.com/data".

(** [new FetcherWithEtag(http, auth, endpoint, converter, isEqual)] *)
Definition fresh : Fetcher string string := new_Fetcher endpoint None false.

(** The same with [refreshInterval = 60000]. *)
Definition polled : Fetcher string string := new_Fetcher endpoint (Some 60000) false.

Definition response (st : Z) (h : HttpHeaders) (b : option string)
  : Outcome string :=
  Responded (mkResponse st h b).

(** After a first [200] whose [Expires] is the epoch. *)
Definition after_epoch_expiry : Fetcher string string :=
  fst (fetch deps fresh 1000
         (response 200 [("Expires", "Thu, 01 Jan 1970 00:00:00 GMT")] (Some "A"))
         1001).

(** A polled engine after a first [200] carrying [ETag: v1] and the value ["A"]. *)
Definition after_first : Fetcher string string :=
  fst (fetch deps polled 1000 (response 200 [("ETag", "v1")] (Some "A")) 1001).

End Demo.

(** ** Vocabulary for runs of calls and for reading the trace *)

Definition is_HttpGet {T RawT : Type} (e : Event T RawT) : bool :=
  match e with HttpGet _ _ => true | _ => false end.
Definition is_SubscriberNext {T RawT : Type} (e : Event T RawT) : bool :=
  match e with SubscriberNext _ _ => true | _ => false end.
Definition is_SetTimeout {T RawT : Type} (e : Event T RawT) : bool :=
  match e with SetTimeout _ => true | _ => false end.

(** The values the change stream has sent, oldest first. *)
Fixpoint data_emissions {T RawT : Type} (es : list (Event T RawT)) : list T :=
  match es with
  | [] => []
  | DataNext v :: es' => v :: data_emissions es'
  | _ :: es' => data_emissions es'
  end.

(** One call of [fetch()] together with what the clock and the transport
    answer during it. *)
Record FetchCall (RawT : Type) : Type := mkFetchCall {
  call_now1 : Z;
  call_outcome : Outcome RawT;
  call_now2 : Z
}.
Arguments mkFetchCall {RawT} call_now1 call_outcome call_now2.
Arguments call_now1 {RawT} f.
Arguments call_outcome {RawT} f.
Arguments call_now2 {RawT} f.

(** Calls of [fetch()] one after the other, each awaited. *)
Definition fetch_all {T RawT : Type} (deps : Collaborators T RawT)
  (f : Fetcher T RawT) (calls : list (FetchCall RawT)) : Fetcher T RawT :=
  foldl (fun f c => fst (fetch deps f (call_now1 c) (call_outcome c) (call_now2 c)))
        f calls.

(** No element of a list is followed by one that [R] relates it to. *)
Fixpoint no_adjacent {A : Type} (R : A -> A -> bool) (l : list A) : bool :=
  match l with
  | a :: l' =>
      match l' with
      | b :: _ => negb (R a b) && no_adjacent R l'
      | [] => true
      end
  | [] => true
  end.

(** How many entries of a header set carry a name. *)
Definition headers_count (h : HttpHeaders) (name : string) : nat :=
  length (filter (fun p => String.eqb (fst p) name = true) h).

(** ** The engine as [LocalDataLoaderEtagService] builds it *)

Section OverlayService.

Context {Item : Type}.
Variable idKey : Item -> Id.

Local Abbreviation RawT := (RawData (Item := Item)).
Local Abbreviation DataT := (Data (Item := Item)).

(** [createFetcherWithEtag(this.converter.bind(this), this.isEqual.bind(this))]:
    the service hands its own [converter] and [isEqual] to the engine; the
    auth headers and the date reader are those of the caller and the runtime.
    A raw payload is an object, hence truthy. *)
Definition service_collaborators (authHeaders : HttpHeaders)
  (Date_getTime : string -> option Z) : Collaborators DataT RawT :=
  mkCollaborators DataT RawT
    (fun raw => inr (service_converter idKey raw))
    service_isEqual authHeaders Date_getTime (fun _ => true).

(** What [dataLoader$] has received once the engine's trace is [es]. *)
Definition upstream_of (es : list (Event DataT RawT))
  : list (Upstream (Item := Item)) :=
  map UpNext (data_emissions es).

End OverlayService.

(** A concrete collection endpoint: items are pairs of an identifier and a
    name. *)
Module DemoService.

Definition Item : Type := (Id * string)%type.

Definition deps
  : Collaborators (Data (Item := Item)) (RawData (Item := Item)) :=
  service_collaborators fst [] Demo.Date_getTime.

Definition fresh
  : Fetcher (Data (Item := Item)) (RawData (Item := Item)) :=
  new_Fetcher Demo.endpoint (Some 60000) false.

Definition first_payload : RawData (Item := Item) :=
  mkRawData "a" [(IdString "x", "X"); (IdString "y", "Y")].

(** The same [etag] over other items. *)
Definition same_etag_payload : RawData (Item := Item) :=
  mkRawData "a" [(IdString "x", "X2")].

Definition after_first
  : Fetcher (Data (Item := Item)) (RawData (Item := Item)) :=
  fst (fetch deps fresh 1000
         (Responded (mkResponse 200 [("ETag", "v1")] (Some first_payload))) 1001).

End DemoService.

(** * Properties *)

(** ** Freshness *)

Section FreshnessFacts.

Context {T RawT : Type}.
Implicit Types (f : Fetcher T RawT) (now : Z).

Lemma truthy_Z_true z : truthy_Z z = true <-> z <> 0.
Proof. unfold truthy_Z. rewrite negb_true_iff, Z.eqb_neq. tauto. Qed.

Lemma truthy_Z_false z : truthy_Z z = false <-> z = 0.
Proof. unfold truthy_Z. rewrite negb_false_iff, Z.eqb_eq. tauto. Qed.

(** The interval, when there is one, is never negative. *)
Lemma getRefreshInterval_nonneg f now i :
  getRefreshIntervalInMilliseconds f now = Some i -> 0 <= i.
Proof.
  unfold getRefreshIntervalInMilliseconds, isValidExpiration, expires_minus,
    isValidRefreshInterval, refresh_minus.
  destruct f as [u e x l v p r w d lo lg]; simpl.
  destruct x as [[|x]|], l as [l|], r as [r|], v as [v|]; simpl;
    repeat match goal with
           | |- context [truthy_Z ?z] =>
               let E := fresh "E" in destruct (truthy_Z z) eqn:E; simpl
           | |- context [?a >? ?b] =>
               let E := fresh "E" in destruct (Z.gtb_spec a b); simpl
           | |- context [?a =? ?b] =>
               let E := fresh "E" in destruct (Z.eqb_spec a b); simpl
           end;
    intros [= <-]; lia.
Qed.

(** With [0] and [NaN] read as "not set", the way the code tests presence,
    the interval is the effective wait of the claim on every state. *)
Lemma getRefreshInterval_falsy_as_unset f now :
  getRefreshIntervalInMilliseconds f now
  = effective_wait nothing_configured (falsy_as_unset f) now.
Proof.
  unfold getRefreshIntervalInMilliseconds, effective_wait, nothing_configured,
    expiryRemaining, refreshRemaining, falsy_as_unset, isValidExpiration,
    expires_minus, isValidRefreshInterval, refresh_minus.
  destruct f as [u e x l v p r w d lo lg]; simpl.
  destruct x as [[|x]|], l as [l|], r as [r|], v as [v|]; simpl;
    repeat match goal with
           | |- context [truthy_Z ?z] =>
               let E := fresh "E" in
               destruct (truthy_Z z) eqn:E;
               [apply truthy_Z_true in E | apply truthy_Z_false in E]; simpl
           | |- context [?a >? ?b] => destruct (Z.gtb_spec a b); simpl
           | |- context [?a =? ?b] => destruct (Z.eqb_spec a b); simpl
           end;
    try reflexivity; try (f_equal; lia); try lia.
Qed.

(** On every state that stores no [0] and no [NaN], the interval is
    undefined exactly when a value is known and neither an expiry nor a
    refresh interval is configured; otherwise it is the smaller of the
    remaining durations that are present, and [0] when none is. *)
Lemma getRefreshInterval_effective_wait f now :
  no_falsy_number f ->
  getRefreshIntervalInMilliseconds f now
  = effective_wait nothing_configured f now.
Proof.
  unfold no_falsy_number, getRefreshIntervalInMilliseconds, effective_wait,
    nothing_configured, expiryRemaining, refreshRemaining, isValidExpiration,
    expires_minus, isValidRefreshInterval, refresh_minus.
  destruct f as [u e x l v p r w d lo lg]; simpl.
  intros (Hx0 & HxN & Hl & Hr).
  destruct x as [[|x]|], l as [l|], r as [r|], v as [v|]; simpl;
    try congruence;
    repeat match goal with
           | |- context [truthy_Z ?z] =>
               let E := fresh "E" in
               destruct (truthy_Z z) eqn:E;
               [apply truthy_Z_true in E | apply truthy_Z_false in E]; simpl
           | |- context [?a >? ?b] => destruct (Z.gtb_spec a b); simpl
           | |- context [?a =? ?b] => destruct (Z.eqb_spec a b); simpl
           end;
    try reflexivity; try (f_equal; lia); try lia; try congruence.
Qed.

(** C1: with a value known and no refresh interval, an [Expires] that is
    not ahead of the clock makes the interval [0], as the method's
    documentation says of expired values and as the claim's effective wait
    has it, except when the stamp is the epoch itself: [0] is falsy,
    [!this.expires] takes the stored expiry for a missing one, and the
    interval comes out undefined. *)
Theorem getRefreshInterval_expired_expires f now e :
  value f <> None ->
  expires f = Some (Num e) ->
  e <= now ->
  refreshInterval f = None ->
  getRefreshIntervalInMilliseconds f now = (if e =? 0 then None else Some 0)
  /\ effective_wait nothing_configured f now = Some 0.
Proof.
  unfold getRefreshIntervalInMilliseconds, effective_wait, nothing_configured,
    expiryRemaining, refreshRemaining, isValidExpiration, expires_minus,
    isValidRefreshInterval, refresh_minus.
  destruct f as [u et x l v p r w d lo lg]; simpl.
  intros Hv -> He ->. destruct v as [v|]; [|congruence].
  destruct l as [l|]; simpl;
    repeat match goal with
           | |- context [truthy_Z ?z] => destruct (truthy_Z z); simpl
           | |- context [?a >? ?b] => destruct (Z.gtb_spec a b); simpl
           | |- context [?a =? ?b] => destruct (Z.eqb_spec a b); simpl
           end;
    try lia; split; reflexivity.
Qed.

End FreshnessFacts.

(** After a [200] whose [Expires] header is the epoch, a value is known and
    an expiry is stored, yet the interval is undefined where the effective
    wait is [0]. *)
Lemma getRefreshInterval_epoch_expiry :
  value Demo.after_epoch_expiry = Some "A"
  /\ expires Demo.after_epoch_expiry = Some (Num 0)
  /\ getRefreshIntervalInMilliseconds Demo.after_epoch_expiry 2000 = None
  /\ effective_wait nothing_configured Demo.after_epoch_expiry 2000 = Some 0
  /\ getRefreshIntervalInMilliseconds Demo.after_epoch_expiry 2000
     <> effective_wait nothing_configured Demo.after_epoch_expiry 2000.
Proof. vm_compute. repeat split; congruence. Qed.

(** An [Expires] in the past, at the concrete endpoint: five seconds after
    the epoch it gives [0] at [6000]; at the epoch it gives undefined. *)
Lemma getRefreshInterval_expired_expires_witness :
  getRefreshIntervalInMilliseconds Demo.after_epoch_expiry 6000 = None
  /\ effective_wait nothing_configured Demo.after_epoch_expiry 6000 = Some 0
  /\ getRefreshIntervalInMilliseconds
       (fst (fetch Demo.deps Demo.fresh 1000
               (Demo.response 200 [("Expires", "Thu, 01 Jan 1970 00:00:05 GMT")]
                  (Some "A"))
               1001))
       6000
     = Some 0.
Proof.
  destruct (getRefreshInterval_expired_expires Demo.after_epoch_expiry 6000 0)
    as (Hcode & Hclaim); [discriminate|reflexivity|lia|reflexivity|].
  destruct (getRefreshInterval_expired_expires
              (fst (fetch Demo.deps Demo.fresh 1000
                      (Demo.response 200
                         [("Expires", "Thu, 01 Jan 1970 00:00:05 GMT")] (Some "A"))
                      1001))
              6000 5000)
    as (Hsibling & _); [discriminate|reflexivity|lia|reflexivity|].
  exact (conj Hcode (conj Hclaim Hsibling)).
Defined.

(** The polled engine that fetched ["A"] at [1001]: at [2000] there are
    [59001] ms left. *)
Lemma getRefreshInterval_effective_wait_witness :
  no_falsy_number Demo.after_first
  /\ getRefreshIntervalInMilliseconds Demo.after_first 2000 = Some 59001
  /\ effective_wait nothing_configured Demo.after_first 2000 = Some 59001.
Proof.
  assert (Hn : no_falsy_number Demo.after_first)
    by (vm_compute; repeat split; discriminate).
  split; [exact Hn|].
  pose proof (getRefreshInterval_effective_wait Demo.after_first 2000 Hn) as He.
  split; [reflexivity|]. rewrite <- He. reflexivity.
Defined.

(** The other stored numbers behave alike: a [refreshInterval] of [0], an
    unparsable expiry, a fetch stamped [0]. *)
Example getRefreshInterval_other_falsy_numbers :
  (let f := mkFetcher Demo.endpoint None None (Some 1001) (Some "A") None
              (Some 0) false Rx.new_Subject false [] : Fetcher string string in
   getRefreshIntervalInMilliseconds f 2000 = None
   /\ effective_wait nothing_configured f 2000 = Some 0)
  /\ (let f := mkFetcher Demo.endpoint None (Some NaN) (Some 1001) (Some "A") None
                 None false Rx.new_Subject false [] : Fetcher string string in
      getRefreshIntervalInMilliseconds f 2000 = None
      /\ effective_wait nothing_configured f 2000 = Some 0)
  /\ (let f := mkFetcher Demo.endpoint None None (Some 0) (Some "A") None
                 (Some 60000) false Rx.new_Subject false [] : Fetcher string string in
      getRefreshIntervalInMilliseconds f 2000 = Some 0
      /\ effective_wait nothing_configured f 2000 = Some 58000).
Proof. vm_compute. repeat split. Qed.

(** ** One fetch *)

Section FetchFacts.

Context {T RawT : Type}.
Variable deps : Collaborators T RawT.
Implicit Types (f : Fetcher T RawT) (r : HttpResponse RawT) (now : Z).

Lemma new_events_app f f' es : log f' = log f ++ es -> new_events f f' = es.
Proof. unfold new_events. intros ->. apply drop_app_length. Qed.

Lemma new_events_same f f' : log f' = log f -> new_events f f' = [].
Proof. intros E. apply new_events_app. now rewrite E, app_nil_r. Qed.

(** Before the [await], [fetch()] either settles at once without touching
    anything, or announces loading and issues the request. *)
Lemma fetch_begin_cases f now :
  fetch_begin deps f now = (f, Settled (Resolve (value f)))
  \/ fetch_begin deps f now = (f, Settled (Reject UrlNotSetError))
  \/ fetch_begin deps f now = (requesting deps f, AwaitingResponse).
Proof.
  unfold fetch_begin.
  destruct (negb (defined _) && negb _); [now left|].
  destruct (default 0 _ >? 0); [now left|].
  destruct (negb (truthy_string _)); [now right; left|].
  right; right. reflexivity.
Qed.

Lemma fetch_resume_failed f e now :
  fetch_resume deps f (Failed e) now = (f, Reject e).
Proof. reflexivity. Qed.

Lemma fetch_resume_unexpected f r now :
  status r <> 200 -> status r <> 304 ->
  fetch_resume deps f (Responded r) now
  = (loadingSubject_next f false,
     Reject (UnexpectedResponseError (status r) (url f))).
Proof.
  intros H2 H3. unfold fetch_resume, HttpStatusCode_Ok, HttpStatusCode_NotModified.
  destruct (Z.eqb_spec (status r) 200); [contradiction|].
  destruct (Z.eqb_spec (status r) 304); [contradiction|]. reflexivity.
Qed.

Lemma fetch_resume_304 f r now :
  status r = 304 ->
  fetch_resume deps f (Responded r) now
  = (revalidated deps f r now, Resolve (value f)).
Proof.
  intros H3. unfold fetch_resume, HttpStatusCode_Ok, HttpStatusCode_NotModified.
  rewrite H3. reflexivity.
Qed.

Lemma fetch_resume_200_no_body f r now :
  status r = 200 -> truthy_opt (truthy_body deps) (body r) = false ->
  fetch_resume deps f (Responded r) now
  = (revalidated deps f r now, Resolve (value f)).
Proof.
  intros H2 Hb. unfold fetch_resume, HttpStatusCode_Ok, HttpStatusCode_NotModified.
  rewrite H2, Hb. reflexivity.
Qed.

Lemma fetch_resume_200_converter_throws f r now raw e :
  status r = 200 -> body r = Some raw -> truthy_body deps raw = true ->
  converter deps raw = inl e ->
  fetch_resume deps f (Responded r) now
  = (emit (revalidated deps f r now) [ConverterCall raw], Reject e).
Proof.
  intros H2 Hb Ht Hc. unfold fetch_resume, HttpStatusCode_Ok, HttpStatusCode_NotModified.
  rewrite H2, Hb. simpl. rewrite Ht, Hc. reflexivity.
Qed.

Lemma fetch_resume_200_equal f r now raw v v' :
  status r = 200 -> body r = Some raw -> truthy_body deps raw = true ->
  converter deps raw = inr v' ->
  value f = Some v -> isEqual deps v v' = true ->
  fetch_resume deps f (Responded r) now
  = (emit (revalidated deps f r now) [ConverterCall raw], Resolve (Some v)).
Proof.
  intros H2 Hb Ht Hc Hv He.
  unfold fetch_resume, HttpStatusCode_Ok, HttpStatusCode_NotModified.
  rewrite H2, Hb. simpl. rewrite Ht, Hc. simpl. rewrite Hv, He. reflexivity.
Qed.

(** The remaining path of a [200]: the converted value is new. *)
Lemma fetch_resume_200_changed f r now raw v' :
  status r = 200 -> body r = Some raw -> truthy_body deps raw = true ->
  converter deps raw = inr v' -> is_change deps f v' ->
  let f1 := set_value (emit (revalidated deps f r now) [ConverterCall raw]) (Some v') in
  fetch_resume deps f (Responded r) now
  = match dataSubject_next f1 v' with
    | inl e => (f1, Reject e)
    | inr f2 => (f2, Resolve (value f2))
    end.
Proof.
  intros H2 Hb Ht Hc Hch.
  unfold fetch_resume, HttpStatusCode_Ok, HttpStatusCode_NotModified.
  rewrite H2, Hb. simpl. rewrite Ht, Hc. simpl.
  destruct Hch as [Hv | (v & Hv & He)]; rewrite Hv; [|rewrite He]; reflexivity.
Qed.

Lemma log_requesting f :
  log (requesting deps f)
  = log f ++ [LoadingNext true; HttpGet (url f) (getHeaders deps f)].
Proof. unfold requesting. simpl. now rewrite <- app_assoc. Qed.

Lemma new_events_trans f f1 f' es1 es2 :
  log f1 = log f ++ es1 -> log f' = log f1 ++ es2 ->
  new_events f f' = es1 ++ es2.
Proof.
  intros E1 E2. apply new_events_app. now rewrite E2, E1, <- app_assoc.
Qed.

(** Whatever the transport answers, the continuation of [fetch()] only adds
    to the trace, and it replaces the value in one situation only: a [200]
    whose body converts to a value that is a change. *)
Lemma fetch_resume_inv f o now :
  let f' := fst (fetch_resume deps f o now) in
  exists es, log f' = log f ++ es
    /\ ((value f' = value f /\ existsb is_DataNext es = false)
        \/ (exists r raw v',
              o = Responded r /\ status r = 200 /\ body r = Some raw
              /\ truthy_body deps raw = true
              /\ converter deps raw = inr v'
              /\ value f' = Some v' /\ is_change deps f v')).
Proof.
  destruct o as [r|e]; [|exists []; simpl; rewrite app_nil_r; auto].
  destruct (Z.eq_dec (status r) 304) as [H3|H3].
  { rewrite fetch_resume_304 by assumption. eexists; split; [reflexivity|auto]. }
  destruct (Z.eq_dec (status r) 200) as [H2|H2].
  2:{ rewrite fetch_resume_unexpected by assumption.
      eexists; split; [reflexivity|auto]. }
  destruct (truthy_opt (truthy_body deps) (body r)) eqn:Hb.
  2:{ rewrite fetch_resume_200_no_body by assumption.
      eexists; split; [reflexivity|auto]. }
  destruct (body r) as [raw|] eqn:Hr; [simpl in Hb|discriminate].
  destruct (converter deps raw) as [e|v'] eqn:Hc.
  { erewrite fetch_resume_200_converter_throws by eassumption.
    eexists; split; [simpl; now rewrite <- app_assoc|auto]. }
  destruct (value f) as [v|] eqn:Hv.
  - destruct (isEqual deps v v') eqn:He.
    + erewrite fetch_resume_200_equal by eassumption.
      eexists; split; [simpl; now rewrite <- app_assoc|].
      left. simpl. auto.
    + assert (Hch : is_change deps f v') by (right; eauto).
      rewrite (fetch_resume_200_changed f r now raw v' H2 Hr Hb Hc Hch).
      unfold dataSubject_next, Rx.next; simpl.
      destruct (Rx.closed (dataSubject f)), (Rx.isStopped (dataSubject f)); simpl;
        (eexists; split; [now rewrite <- !app_assoc|]);
        right; exists r, raw, v'; repeat split; auto.
  - assert (Hch : is_change deps f v') by (now left).
    rewrite (fetch_resume_200_changed f r now raw v' H2 Hr Hb Hc Hch).
    unfold dataSubject_next, Rx.next; simpl.
    destruct (Rx.closed (dataSubject f)), (Rx.isStopped (dataSubject f)); simpl;
      (eexists; split; [now rewrite <- !app_assoc|]);
      right; exists r, raw, v'; repeat split; auto.
Qed.

Ltac fetch_cases f now :=
  unfold fetch;
  let E := fresh "E" in
  destruct (fetch_begin_cases f now) as [E|[E|E]]; rewrite E; cbn [fst snd].

(** The same for one whole [fetch()]. *)
Lemma fetch_inv f now1 o now2 :
  let f' := fst (fetch deps f now1 o now2) in
  (value f' = value f /\ existsb is_DataNext (new_events f f') = false)
  \/ (exists r raw v',
        o = Responded r /\ status r = 200 /\ body r = Some raw
        /\ truthy_body deps raw = true
        /\ converter deps raw = inr v'
        /\ value f' = Some v' /\ is_change deps f v').
Proof.
  fetch_cases f now1.
  - left. now rewrite new_events_same.
  - left. now rewrite new_events_same.
  - destruct (fetch_resume_inv (requesting deps f) o now2) as (es & Hl & [[Hv Hn]|Hc]).
    + left. split; [exact Hv|].
      rewrite (new_events_trans _ _ _ _ _ (log_requesting f) Hl). exact Hn.
    + right. exact Hc.
Qed.

(** C2: a [304] never reaches the converter and never emits; a [200] whose
    converted body is [isEqual] to the cached value keeps that value and does
    not emit; and a [fetch()] stores a new value, or emits, only on a [200]
    whose converted body meets no prior value or one that [isEqual] tells
    apart. *)
Theorem fetch_emission_discipline f now1 now2 :
  (forall r, status r = 304 ->
     let f' := fst (fetch deps f now1 (Responded r) now2) in
     value f' = value f
     /\ existsb is_ConverterCall (new_events f f') = false
     /\ existsb is_DataNext (new_events f f') = false)
  /\ (forall r raw v v',
        status r = 200 -> body r = Some raw ->
        converter deps raw = inr v' ->
        value f = Some v -> isEqual deps v v' = true ->
        let f' := fst (fetch deps f now1 (Responded r) now2) in
        value f' = Some v
        /\ existsb is_DataNext (new_events f f') = false)
  /\ (forall o,
        let f' := fst (fetch deps f now1 o now2) in
        value f' <> value f \/ existsb is_DataNext (new_events f f') = true ->
        exists r raw v',
          o = Responded r /\ status r = 200 /\ body r = Some raw
          /\ converter deps raw = inr v'
          /\ value f' = Some v' /\ is_change deps f v').
Proof.
  split; [|split].
  - intros r H3. fetch_cases f now1.
    + now rewrite new_events_same.
    + now rewrite new_events_same.
    + rewrite fetch_resume_304 by assumption. cbn [fst].
      rewrite (new_events_trans f (requesting deps f) _ _ [LoadingNext false]
                 (log_requesting f)) by reflexivity.
      now repeat split.
  - intros r raw v v' H2 Hr Hc Hv He. fetch_cases f now1.
    + now rewrite new_events_same.
    + now rewrite new_events_same.
    + destruct (truthy_body deps raw) eqn:Hb.
      * rewrite (fetch_resume_200_equal (requesting deps f) r now2 raw v v')
          by assumption.
        cbn [fst].
        rewrite (new_events_trans f (requesting deps f) _ _
                   [LoadingNext false; ConverterCall raw] (log_requesting f))
          by (simpl; now rewrite <- !app_assoc).
        now split.
      * rewrite fetch_resume_200_no_body by (try rewrite Hr; assumption).
        cbn [fst].
        rewrite (new_events_trans f (requesting deps f) _ _ [LoadingNext false]
                   (log_requesting f)) by reflexivity.
        now split.
  - intros o f' [Hne|Hex]; subst f';
      destruct (fetch_inv f now1 o now2) as [[Hv Hn]|(r & raw & v' & H)];
      try contradiction; try congruence;
      exists r, raw, v'; tauto.
Qed.

Ltac fetch_awaits H f now :=
  unfold fetch;
  let E := fresh "E" in
  destruct (fetch_begin_cases f now) as [E|[E|E]]; rewrite E in H |- *;
  [discriminate H | discriminate H | cbn [fst snd]].

(** Once a [200] / [304] has come in, the validators are those of the
    response on every path, also when the converter or the stream throws. *)
Lemma fetch_resume_validators f r now :
  status r = 200 \/ status r = 304 ->
  let f' := fst (fetch_resume deps f (Responded r) now) in
  etag f' = headers_get (headers r) "ETag"
  /\ expires f' = createExpires deps (headers_get (headers r) "Expires")
  /\ lastFetchTimestamp f' = Some now
  /\ loading f' = false.
Proof.
  intros Hs. unfold fetch_resume, HttpStatusCode_Ok, HttpStatusCode_NotModified.
  assert (Hok : negb (status r =? 200) && negb (status r =? 304) = false)
    by (destruct Hs as [-> | ->]; reflexivity).
  rewrite Hok.
  destruct (status r =? 304); [now repeat split|].
  destruct (negb (truthy_opt (truthy_body deps) (body r))); [now repeat split|].
  destruct (body r) as [raw|]; [|now repeat split].
  destruct (converter deps raw) as [e|v']; [now repeat split|].
  cbn [value set_expires set_lastFetchTimestamp set_etag loadingSubject_next emit].
  destruct (match value f with Some v => negb (isEqual deps v v') | None => true end);
    [|now repeat split].
  unfold dataSubject_next, Rx.next; simpl.
  destruct (Rx.closed (dataSubject f)), (Rx.isStopped (dataSubject f));
    now repeat split.
Qed.

(** C3, as amended: when the converter throws on a [200] body the fetch
    fails with the converter's error, the cached value stays and nothing is
    emitted; [etag], [expires] and [lastFetchTimestamp] have by then been
    overwritten from that response. *)
Theorem fetch_converter_failure f now1 now2 r raw e :
  snd (fetch_begin deps f now1) = AwaitingResponse ->
  status r = 200 -> body r = Some raw -> truthy_body deps raw = true ->
  converter deps raw = inl e ->
  let f' := fst (fetch deps f now1 (Responded r) now2) in
  snd (fetch deps f now1 (Responded r) now2) = Reject e
  /\ value f' = value f
  /\ existsb is_DataNext (new_events f f') = false
  /\ etag f' = headers_get (headers r) "ETag"
  /\ expires f' = createExpires deps (headers_get (headers r) "Expires")
  /\ lastFetchTimestamp f' = Some now2.
Proof.
  intros Ha H2 Hr Hb Hc. fetch_awaits Ha f now1.
  rewrite (fetch_resume_200_converter_throws (requesting deps f) r now2 raw e)
    by assumption.
  cbn [fst snd].
  rewrite (new_events_trans f (requesting deps f) _ _
             [LoadingNext false; ConverterCall raw] (log_requesting f))
    by (simpl; now rewrite <- !app_assoc).
  now repeat split.
Qed.

(** C4, as amended: after a [fetch()] that received a [200] or a [304],
    [etag] is the response's [ETag] header ([null] when absent) and [expires]
    is [null] when the [Expires] header is absent or empty, the parsed
    timestamp when it parses, and [NaN] when it does not. *)
Theorem fetch_records_validators f now1 now2 r :
  snd (fetch_begin deps f now1) = AwaitingResponse ->
  status r = 200 \/ status r = 304 ->
  let f' := fst (fetch deps f now1 (Responded r) now2) in
  etag f' = headers_get (headers r) "ETag"
  /\ expires f'
     = match headers_get (headers r) "Expires" with
       | None => None
       | Some s =>
           if String.eqb s "" then None
           else match Date_getTime deps s with
                | Some t => Some (Num t)
                | None => Some NaN
                end
       end
  /\ lastFetchTimestamp f' = Some now2.
Proof.
  intros Ha Hs. fetch_awaits Ha f now1.
  destruct (fetch_resume_validators (requesting deps f) r now2 Hs)
    as (He & Hx & Hl & _).
  repeat split; [exact He| |exact Hl].
  rewrite Hx. unfold createExpires, Date_getTime_number, truthy_string.
  destruct (headers_get (headers r) "Expires") as [s|]; [|reflexivity].
  destruct (String.eqb s ""); [reflexivity|].
  simpl. destruct (Date_getTime deps s); reflexivity.
Qed.

(** An unparsable expiry counts for nothing in the freshness computation. *)
Lemma NaN_expiry_like_null f now :
  expires f = Some NaN ->
  getRefreshIntervalInMilliseconds f now
  = getRefreshIntervalInMilliseconds (set_expires f None) now.
Proof.
  intros Hx.
  unfold getRefreshIntervalInMilliseconds, isValidExpiration, expires_minus,
    isValidRefreshInterval, refresh_minus.
  simpl. rewrite Hx. reflexivity.
Qed.

(** C5, where the code departs from the claim: when the transport fails, the
    fetch fails with the transport's error and the loading stream is left at
    [true]; nothing follows the request in the trace. *)
Theorem fetch_transport_failure_keeps_loading f now1 now2 e :
  snd (fetch_begin deps f now1) = AwaitingResponse ->
  let f' := fst (fetch deps f now1 (Failed e) now2) in
  snd (fetch deps f now1 (Failed e) now2) = Reject e
  /\ loading f' = true
  /\ new_events f f' = [LoadingNext true; HttpGet (url f) (getHeaders deps f)].
Proof.
  intros Ha. fetch_awaits Ha f now1.
  repeat split. apply new_events_app, log_requesting.
Qed.

(** Whenever the transport does answer, whatever the status and whatever
    the converter does, [true] precedes the request and [false] follows it at
    once. *)
Lemma fetch_response_ends_loading f now1 now2 r :
  snd (fetch_begin deps f now1) = AwaitingResponse ->
  let f' := fst (fetch deps f now1 (Responded r) now2) in
  loading f' = false
  /\ exists rest,
       new_events f f'
       = [LoadingNext true; HttpGet (url f) (getHeaders deps f); LoadingNext false]
         ++ rest.
Proof.
  intros Ha. fetch_awaits Ha f now1.
  assert (Hl : exists rest,
             log (fst (fetch_resume deps (requesting deps f) (Responded r) now2))
             = log (requesting deps f) ++ [LoadingNext false] ++ rest).
  { unfold fetch_resume.
    destruct (negb _ && negb _); [exists []; reflexivity|].
    destruct (status r =? _); [exists []; reflexivity|].
    destruct (negb (truthy_opt _ _)); [exists []; reflexivity|].
    destruct (body r) as [raw|]; [|exists []; reflexivity].
    destruct (converter deps raw) as [e|v'];
      [exists [ConverterCall raw]; simpl; now rewrite <- !app_assoc|].
    destruct (match value _ with Some v => negb (isEqual deps v v') | None => true end);
      [|exists [ConverterCall raw]; simpl; now rewrite <- !app_assoc].
    unfold dataSubject_next, Rx.next; simpl.
    destruct (Rx.closed (dataSubject f)), (Rx.isStopped (dataSubject f)); simpl;
      eexists; rewrite <- !app_assoc; simpl; reflexivity. }
  split.
  - destruct (Z.eq_dec (status r) 200) as [H2|H2];
      [|destruct (Z.eq_dec (status r) 304) as [H3|H3]].
    + now apply fetch_resume_validators; left.
    + now apply fetch_resume_validators; right.
    + now rewrite fetch_resume_unexpected.
  - destruct Hl as (rest & Hl). exists rest.
    rewrite (new_events_trans f (requesting deps f) _ _ _ (log_requesting f) Hl).
    reflexivity.
Qed.

(** An expiry that still lies ahead makes the interval positive. *)
Lemma valid_expiration_positive f now :
  isValidExpiration f now = true ->
  exists i, getRefreshIntervalInMilliseconds f now = Some i /\ 0 < i.
Proof.
  unfold getRefreshIntervalInMilliseconds, isValidExpiration, expires_minus,
    isValidRefreshInterval, refresh_minus.
  destruct (expires f) as [[|x]|]; try discriminate.
  intros Hv. rewrite Hv.
  apply andb_prop in Hv as [Ht Hg]. apply Z.gtb_lt in Hg.
  assert (Hx : (x - now =? 0) = false) by (apply Z.eqb_neq; lia).
  destruct (lastFetchTimestamp f) as [l|], (refreshInterval f) as [ri|];
    cbn [truthy_opt truthy_number]; rewrite ?Ht, ?Hx; cbn [andb negb];
    try (eexists; split; [reflexivity|lia]).
  destruct (truthy_Z l && truthy_Z ri && (l + ri >? now)) eqn:Hr;
    rewrite ?Hx; cbn [orb andb];
    [|eexists; split; [reflexivity|lia]].
  apply andb_prop in Hr as [_ Hr]. apply Z.gtb_lt in Hr.
  destruct (Z.gtb_spec (x - now) (l + ri - now));
    [assert (Hz : (l + ri - now =? 0) = false) by (apply Z.eqb_neq; lia)
    |assert (Hz : (x - now =? 0) = false) by (apply Z.eqb_neq; lia)];
    rewrite Hz; cbn [andb]; eexists; (split; [reflexivity|lia]).
Qed.

(** A positive interval: [fetch()] answers from the cache and touches
    nothing. *)
Lemma fetch_still_fresh f now i o now' :
  getRefreshIntervalInMilliseconds f now = Some i -> 0 < i ->
  fetch deps f now o now' = (f, Resolve (value f)).
Proof.
  intros Hi Hp. apply Z.gtb_lt in Hp.
  unfold fetch, fetch_begin. rewrite Hi.
  cbn [defined negb andb default from_option id]. now rewrite Hp.
Qed.

(** C10: from a state with no value, a [200] without a body makes [fetch()]
    resolve to [undefined]; if that response carried an [Expires] still
    ahead, every later [fetch()] before that instant resolves to [undefined]
    again and leaves the engine as it is: no request, no event. *)
Theorem fetch_resolves_undefined f now1 now2 now3 r s t :
  value f = None ->
  snd (fetch_begin deps f now1) = AwaitingResponse ->
  status r = 200 ->
  truthy_opt (truthy_body deps) (body r) = false ->
  headers_get (headers r) "Expires" = Some s -> s <> "" ->
  Date_getTime deps s = Some t ->
  0 <= now3 < t ->
  let f1 := fst (fetch deps f now1 (Responded r) now2) in
  snd (fetch deps f now1 (Responded r) now2) = Resolve None
  /\ forall o now4, fetch deps f1 now3 o now4 = (f1, Resolve None).
Proof.
  intros Hv Ha H2 Hb Hx Hs Ht Hn. fetch_awaits Ha f now1.
  rewrite fetch_resume_200_no_body by assumption. cbn [fst snd].
  change (value (requesting deps f)) with (value f). rewrite Hv.
  split; [reflexivity|]. intros o now4.
  destruct (valid_expiration_positive (revalidated deps (requesting deps f) r now2) now3)
    as (i & Hi & Hp).
  { unfold isValidExpiration, revalidated; cbn [expires]. rewrite Hx.
    unfold createExpires, Date_getTime_number, truthy_string.
    apply String.eqb_neq in Hs. rewrite Hs, Ht. cbn [negb].
    apply andb_true_intro; split; [apply truthy_Z_true; lia|apply Z.gtb_lt; lia]. }
  pose proof (fetch_still_fresh _ _ _ o now4 Hi Hp) as Hf.
  unfold fetch in Hf. rewrite Hf.
  cbn [value revalidated]. change (value (requesting deps f)) with (value f).
  now rewrite Hv.
Qed.

End FetchFacts.

(** *** The fetch properties at the concrete endpoint *)

(** A [304], an equal [200] and a changed [200] on the engine that holds
    ["A"] under [ETag: v1]. *)
Lemma fetch_emission_discipline_witness :
  (let f' := fst (fetch Demo.deps Demo.after_first 70000
                    (Demo.response 304 [("ETag", "v1")] None) 70001) in
   value f' = Some "A"
   /\ existsb is_ConverterCall (new_events Demo.after_first f') = false
   /\ existsb is_DataNext (new_events Demo.after_first f') = false)
  /\ (let f' := fst (fetch Demo.deps Demo.after_first 70000
                       (Demo.response 200 [("ETag", "v1")] (Some "A")) 70001) in
      value f' = Some "A"
      /\ existsb is_DataNext (new_events Demo.after_first f') = false)
  /\ (exists r raw v',
        Demo.response 200 [("ETag", "v2")] (Some "B") = Responded r
        /\ status r = 200 /\ body r = Some raw
        /\ converter Demo.deps raw = inr v'
        /\ value (fst (fetch Demo.deps Demo.after_first 70000
                         (Demo.response 200 [("ETag", "v2")] (Some "B")) 70001))
           = Some v'
        /\ is_change Demo.deps Demo.after_first v').
Proof.
  destruct (fetch_emission_discipline Demo.deps Demo.after_first 70000 70001)
    as (H304 & Hequal & Hchange).
  split; [|split].
  - apply H304. reflexivity.
  - apply (Hequal _ "A" "A" "A"); reflexivity.
  - apply Hchange. right. reflexivity.
Defined.

(** C3, the claim as written fails: the converter throws on the body of a
    [200] carrying [ETag: v2]; the fetch fails and the value is still ["A"],
    but [etag] has moved from [v1] to [v2] and [lastFetchTimestamp] from
    [1001] to [70001]. *)
Lemma converter_failure_moves_validators :
  let f := Demo.after_first in
  let o := Demo.response 200 [("ETag", "v2")] (Some "malformed") in
  let f' := fst (fetch Demo.deps f 70000 o 70001) in
  snd (fetch Demo.deps f 70000 o 70001) = Reject (OtherError "cannot convert")
  /\ value f' = value f
  /\ etag f = Some "v1" /\ etag f' = Some "v2"
  /\ lastFetchTimestamp f = Some 1001 /\ lastFetchTimestamp f' = Some 70001
  /\ etag f' <> etag f
  /\ lastFetchTimestamp f' <> lastFetchTimestamp f.
Proof. vm_compute. repeat split; congruence. Qed.

Lemma fetch_converter_failure_witness :
  let f := Demo.after_first in
  let o := Demo.response 200 [("ETag", "v2")] (Some "malformed") in
  let f' := fst (fetch Demo.deps f 70000 o 70001) in
  snd (fetch Demo.deps f 70000 o 70001) = Reject (OtherError "cannot convert")
  /\ value f' = Some "A"
  /\ existsb is_DataNext (new_events f f') = false
  /\ etag f' = Some "v2"
  /\ expires f' = None
  /\ lastFetchTimestamp f' = Some 70001.
Proof.
  exact (fetch_converter_failure Demo.deps Demo.after_first 70000 70001
           (mkResponse 200 [("ETag", "v2")] (Some "malformed")) "malformed"
           (OtherError "cannot convert")
           eq_refl eq_refl eq_refl eq_refl eq_refl).
Defined.

(** C4, the claim as written fails: a [200] whose [Expires] header does not
    parse leaves [expires] at [NaN], not at [null]. *)
Lemma unparsable_expires_is_NaN :
  let o := Demo.response 200 [("Expires", "soon")] (Some "A") in
  let f' := fst (fetch Demo.deps Demo.fresh 1000 o 1001) in
  snd (fetch Demo.deps Demo.fresh 1000 o 1001) = Resolve (Some "A")
  /\ Demo.Date_getTime "soon" = None
  /\ expires f' = Some NaN
  /\ expires f' <> None.
Proof. vm_compute. repeat split; congruence. Qed.

Lemma fetch_records_validators_witness :
  let r := mkResponse 200
             [("ETag", "v1"); ("Expires", "Thu, 01 Jan 1970 00:01:00 GMT")]
             (Some "A") in
  let f' := fst (fetch Demo.deps Demo.fresh 1000 (Responded r) 1001) in
  etag f' = Some "v1"
  /\ expires f' = Some (Num 60000)
  /\ lastFetchTimestamp f' = Some 1001.
Proof.
  exact (fetch_records_validators Demo.deps Demo.fresh 1000 1001
           (mkResponse 200
              [("ETag", "v1"); ("Expires", "Thu, 01 Jan 1970 00:01:00 GMT")]
              (Some "A"))
           eq_refl (or_introl eq_refl)).
Defined.

(** C5 at a failing input: the transport rejects with a [500]; the trace
    ends with the request and [loading] stays [true]. *)
Lemma fetch_transport_failure_witness :
  let e := HttpErrorResponse 500 [] in
  let f' := fst (fetch Demo.deps Demo.fresh 1000 (Failed e) 1001) in
  snd (fetch Demo.deps Demo.fresh 1000 (Failed e) 1001) = Reject e
  /\ loading f' = true
  /\ new_events Demo.fresh f' = [LoadingNext true; HttpGet Demo.endpoint []].
Proof.
  exact (fetch_transport_failure_keeps_loading Demo.deps Demo.fresh 1000 1001
           (HttpErrorResponse 500 []) eq_refl).
Defined.

(** C10 at the fresh engine: a bodiless [200] expiring at [60000], then a
    second [fetch()] at [30000]. *)
Lemma fetch_resolves_undefined_witness :
  let r := mkResponse 200 [("Expires", "Thu, 01 Jan 1970 00:01:00 GMT")] None in
  let f1 := fst (fetch Demo.deps Demo.fresh 1000 (Responded r) 1001) in
  snd (fetch Demo.deps Demo.fresh 1000 (Responded r) 1001) = Resolve None
  /\ forall o now4, fetch Demo.deps f1 30000 o now4 = (f1, Resolve None).
Proof.
  apply (fetch_resolves_undefined Demo.deps Demo.fresh 1000 1001 30000
           (mkResponse 200 [("Expires", "Thu, 01 Jan 1970 00:01:00 GMT")] None)
           "Thu, 01 Jan 1970 00:01:00 GMT" 60000);
    try reflexivity; [discriminate | lia].
Defined.

(** ** Failures inside the polling loop *)

Section RefreshFacts.

Context {T RawT : Type}.
Variable deps : Collaborators T RawT.
Implicit Types (f : Fetcher T RawT) (e : JsError) (now : Z).

(** C7: when the [fetch()] inside [refreshData()] fails with [e],
    - if [e] is an [HttpErrorResponse] with status [304], [refreshData()]
      resolves, [etag], [lastFetchTimestamp] and [expires] are taken from
      [e]'s headers and the clock, and the stream is left alone;
    - if [e] is an [HttpErrorResponse] with another status, the (unclosed)
      stream ends up stopped, and a stream that was live is errored with [e]
      and loses its observers;
    - if [e] is no [HttpErrorResponse], [refreshData()] resolves and nothing
      changes. *)
Theorem refreshData_recovers f now1 o now2 now3 f1 e :
  fetch deps f now1 o now2 = (f1, Reject e) ->
  let f' := fst (refreshData deps f now1 o now2 now3) in
  let s := snd (refreshData deps f now1 o now2 now3) in
  (forall h, e = HttpErrorResponse 304 h ->
     s = Resolve tt
     /\ etag f' = headers_get h "ETag"
     /\ lastFetchTimestamp f' = Some now3
     /\ expires f' = createExpires deps (headers_get h "Expires")
     /\ value f' = value f1
     /\ dataSubject f' = dataSubject f1
     /\ new_events f1 f' = [])
  /\ (forall st h, e = HttpErrorResponse st h -> st <> 304 ->
        Rx.closed (dataSubject f1) = false ->
        s = Resolve tt
        /\ Rx.isStopped (dataSubject f') = true
        /\ (Rx.isStopped (dataSubject f1) = false ->
            Rx.hasError (dataSubject f') = true
            /\ Rx.thrownError (dataSubject f') = Some e
            /\ Rx.observers (dataSubject f') = []
            /\ new_events f1 f' = [DataError e]))
  /\ (instanceof_HttpErrorResponse e = false ->
        s = Resolve tt /\ f' = f1).
Proof.
  intros Hf. unfold refreshData. rewrite Hf. split; [|split].
  - intros h ->. unfold refreshData_catch, HttpStatusCode_NotModified.
    cbn [Z.eqb Pos.eqb negb fst snd].
    repeat split. now apply new_events_same.
  - intros st h -> Hst Hc. unfold refreshData_catch, HttpStatusCode_NotModified.
    apply Z.eqb_neq in Hst. rewrite Hst. cbn [negb].
    unfold dataSubject_error, Rx.error. rewrite Hc.
    destruct (Rx.isStopped (dataSubject f1)) eqn:Hs; cbn [fst snd].
    + split; [reflexivity|]. split; [simpl; exact Hs|discriminate].
    + split; [reflexivity|]. split; [reflexivity|]. intros _.
      split; [reflexivity|]. split; [reflexivity|]. split; [reflexivity|].
      now apply new_events_app.
  - intros Hi. unfold refreshData_catch.
    destruct e; try discriminate Hi; now split.
Qed.

(** The engine itself never closes its stream: only a call of
    [dataSubject.unsubscribe()] does, and [data$] does not expose it. *)
Lemma fetch_keeps_stream_open f now1 o now2 :
  Rx.closed (dataSubject (fst (fetch deps f now1 o now2)))
  = Rx.closed (dataSubject f).
Proof.
  unfold fetch.
  destruct (fetch_begin_cases deps f now1) as [E|[E|E]]; rewrite E; try reflexivity.
  unfold fetch_resume. destruct o as [r|e]; [|reflexivity].
  destruct (negb _ && negb _); [reflexivity|].
  destruct (status r =? _); [reflexivity|].
  destruct (negb (truthy_opt _ _)); [reflexivity|].
  destruct (body r) as [raw|]; [|reflexivity].
  destruct (converter deps raw) as [e|v']; [reflexivity|].
  destruct (match value _ with Some v => negb (isEqual deps v v') | None => true end);
    [|reflexivity].
  unfold dataSubject_next, Rx.next; simpl.
  destruct (Rx.closed (dataSubject f)) eqn:Hc, (Rx.isStopped (dataSubject f));
    simpl; congruence.
Qed.

End RefreshFacts.

(** C7 at the concrete endpoint: a [304] failure, a [500] failure and a
    failure that is no HTTP response. *)
Lemma refreshData_recovers_witness :
  (let e := HttpErrorResponse 304
              [("ETag", "v1"); ("Expires", "Thu, 01 Jan 1970 00:01:00 GMT")] in
   let f' := fst (refreshData Demo.deps Demo.after_first 70000 (Failed e) 70001 70002) in
   etag f' = Some "v1" /\ lastFetchTimestamp f' = Some 70002
   /\ expires f' = Some (Num 60000)
   /\ dataSubject f' = Rx.new_Subject)
  /\ (let e := HttpErrorResponse 500 [] in
      let f' := fst (refreshData Demo.deps Demo.after_first 70000 (Failed e) 70001 70002) in
      Rx.isStopped (dataSubject f') = true
      /\ Rx.hasError (dataSubject f') = true
      /\ Rx.thrownError (dataSubject f') = Some e)
  /\ (let e := OtherError "offline" in
      let f1 := fst (fetch Demo.deps Demo.after_first 70000 (Failed e) 70001) in
      fst (refreshData Demo.deps Demo.after_first 70000 (Failed e) 70001 70002) = f1
      /\ Rx.isStopped (dataSubject f1) = false).
Proof.
  split; [|split].
  - pose proof (refreshData_recovers Demo.deps Demo.after_first 70000
                  (Failed (HttpErrorResponse 304
                     [("ETag", "v1"); ("Expires", "Thu, 01 Jan 1970 00:01:00 GMT")]))
                  70001 70002 _ _ eq_refl) as (H304 & _ & _).
    destruct (H304 _ eq_refl) as (_ & He & Hl & Hx & _ & Hd & _).
    exact (conj He (conj Hl (conj Hx Hd))).
  - pose proof (refreshData_recovers Demo.deps Demo.after_first 70000
                  (Failed (HttpErrorResponse 500 [])) 70001 70002 _ _ eq_refl)
      as (_ & H500 & _).
    destruct (H500 500 [] eq_refl) as (_ & Hs & Hlive); [lia|reflexivity|].
    destruct (Hlive eq_refl) as (Hh & Ht & _).
    exact (conj Hs (conj Hh Ht)).
  - pose proof (refreshData_recovers Demo.deps Demo.after_first 70000
                  (Failed (OtherError "offline")) 70001 70002 _ _ eq_refl)
      as (_ & _ & Hother).
    destruct (Hother eq_refl) as (_ & Hsame).
    split; [exact Hsame|reflexivity].
Defined.

(** ** Reset *)

Section ResetFacts.

Context {T RawT : Type}.
Variable deps : Collaborators T RawT.
Implicit Types (f : Fetcher T RawT) (now : Z).

Lemma same_cache_refl f : same_cache f f.
Proof. now repeat split. Qed.

Lemma same_cache_trans f f1 f2 :
  same_cache f f1 -> same_cache f1 f2 -> same_cache f f2.
Proof.
  unfold same_cache.
  intros (A1 & A2 & A3 & A4 & A5 & A6 & A7 & A8)
         (B1 & B2 & B3 & B4 & B5 & B6 & B7 & B8).
  repeat split; congruence.
Qed.

Lemma clearPollingTimeout_cache f : same_cache f (clearPollingTimeout f).
Proof.
  unfold clearPollingTimeout. destruct (pollingTimeout f); now repeat split.
Qed.

Lemma dropPollingTimeout_cache f : same_cache f (dropPollingTimeout f).
Proof.
  unfold dropPollingTimeout. destruct (pollingTimeout f); now repeat split.
Qed.

Lemma fetch_begin_cache f now : same_cache f (fst (fetch_begin deps f now)).
Proof.
  destruct (fetch_begin_cases deps f now) as [E|[E|E]]; rewrite E;
    now repeat split.
Qed.

Lemma refreshData_begin_cache f now :
  same_cache f (fst (refreshData_begin deps f now)).
Proof.
  unfold refreshData_begin.
  destruct (fetch_begin_cases deps f now) as [E|[E|E]]; rewrite E;
    now repeat split.
Qed.

Lemma setupPollingTimeout_cache f now :
  same_cache f (setupPollingTimeout deps f now).
Proof.
  unfold setupPollingTimeout.
  destruct (getRefreshIntervalInMilliseconds f now); [now repeat split|].
  eapply same_cache_trans;
    [apply dropPollingTimeout_cache|apply refreshData_begin_cache].
Qed.

(** What follows the opening assignments of [reset()] leaves the cache
    state alone until a response comes in. *)
Lemma reset_begin_cache f newUrl now :
  same_cache (reset_fields f newUrl) (fst (reset_begin deps f newUrl now)).
Proof.
  unfold reset_begin.
  destruct (defined (pollingTimeout (reset_fields f newUrl))); cbn [fst].
  - eapply same_cache_trans;
      [apply clearPollingTimeout_cache|apply setupPollingTimeout_cache].
  - destruct (Rx.observed _); [|apply same_cache_refl].
    pose proof (fetch_begin_cache (reset_fields f newUrl) now) as Hc.
    destruct (fetch_begin deps (reset_fields f newUrl) now) as [f1 [[v|e]|]];
      exact Hc.
Qed.

(** On an engine that is neither polling nor observed, [reset()] is its
    opening assignments and nothing else. *)
Lemma reset_begin_idle f newUrl now :
  pollingTimeout f = None -> Rx.observed (dataSubject f) = false ->
  reset_begin deps f newUrl now = (reset_fields f newUrl, Settled (Resolve tt)).
Proof.
  intros Hp Ho. unfold reset_begin.
  assert (Hp' : pollingTimeout (reset_fields f newUrl) = None).
  { unfold reset_fields. destruct newUrl as [u|]; [|exact Hp].
    destruct (truthy_string u && negb (String.eqb u _)); exact Hp. }
  assert (Ho' : Rx.observed (dataSubject (reset_fields f newUrl)) = false).
  { unfold reset_fields. destruct newUrl as [u|]; [|exact Ho].
    destruct (truthy_string u && negb (String.eqb u _)); exact Ho. }
  now rewrite Hp', Ho'.
Qed.

Lemma reset_fields_spec f newUrl :
  let f' := reset_fields f newUrl in
  etag f' = None /\ expires f' = None /\ lastFetchTimestamp f' = None
  /\ refreshInterval f' = refreshInterval f
  /\ fetchRefreshesWithoutInterval f' = fetchRefreshesWithoutInterval f
  /\ dataSubject f' = dataSubject f
  /\ (newUrl = None \/ newUrl = Some "" \/ newUrl = Some (url f) ->
      value f' = value f /\ url f' = url f)
  /\ (forall u, newUrl = Some u -> u <> "" -> u <> url f ->
      value f' = None /\ url f' = u).
Proof.
  unfold reset_fields, truthy_string. destruct newUrl as [u|]; simpl.
  2:{ repeat split; try reflexivity; intros; discriminate. }
  destruct (String.eqb_spec u "") as [Hu|Hu];
    destruct (String.eqb_spec u (url f)) as [Hf|Hf]; simpl;
    (split; [reflexivity|]); (split; [reflexivity|]); (split; [reflexivity|]);
    (split; [reflexivity|]); (split; [reflexivity|]); (split; [reflexivity|]);
    split.
  all: try (intros _; split; reflexivity).
  all: try (intros v [= <-] Hne Hnf; contradiction).
  - intros [H|[H|H]]; [discriminate|injection H as ->|injection H as ->];
      contradiction.
  - intros v [= <-] _ _. split; reflexivity.
Qed.

(** C6, as amended: by the time [reset(newUrl)] gives control back, [etag],
    [expires] and [lastFetchTimestamp] are [null]; [refreshInterval],
    [fetchRefreshesWithoutInterval] and the stream are as before; the value
    and the URL are as before when [newUrl] is omitted, empty or the current
    URL; and the value is cleared and the URL switched when [newUrl] is a
    non-empty string other than the current URL. *)
Theorem reset_clears_validators f newUrl now :
  let f' := fst (reset_begin deps f newUrl now) in
  etag f' = None /\ expires f' = None /\ lastFetchTimestamp f' = None
  /\ refreshInterval f' = refreshInterval f
  /\ fetchRefreshesWithoutInterval f' = fetchRefreshesWithoutInterval f
  /\ dataSubject f' = dataSubject f
  /\ (newUrl = None \/ newUrl = Some "" \/ newUrl = Some (url f) ->
      value f' = value f /\ url f' = url f)
  /\ (forall u, newUrl = Some u -> u <> "" -> u <> url f ->
      value f' = None /\ url f' = u).
Proof.
  intros f'.
  destruct (reset_begin_cache f newUrl now)
    as (Hu & He & Hx & Hl & Hv & Hr & Hw & Hd).
  fold f' in Hu, He, Hx, Hl, Hv, Hr, Hw, Hd.
  rewrite He, Hx, Hl, Hr, Hw, Hd, Hv, Hu.
  apply reset_fields_spec.
Qed.

End ResetFacts.

(** C6, the claim as written fails: [reset("")] supplies a URL other than
    the current one, yet the value is kept and the URL is not switched. *)
Lemma reset_empty_url_keeps_value :
  let f := Demo.after_first in
  let f' := fst (reset_begin Demo.deps f (Some "") 70000) in
  "" <> url f
  /\ value f' = Some "A" /\ url f' = Demo.endpoint
  /\ value f' <> None /\ url f' <> "".
Proof. vm_compute. repeat split; congruence. Qed.

(** C6 at the concrete endpoint: a reset to the same URL, and one to
    another. *)
Lemma reset_clears_validators_witness :
  (let f' := fst (reset_begin Demo.deps Demo.after_first (Some Demo.endpoint) 70000) in
   etag f' = None /\ value f' = Some "A" /\ url f' = Demo.endpoint)
  /\ (let f' := fst (reset_begin Demo.deps Demo.after_first
                       (Some "https://api.example.com/other") 70000) in
      etag f' = None /\ value f' = None
      /\ url f' = "https://api.example.com/other").
Proof.
  split.
  - destruct (reset_clears_validators Demo.deps Demo.after_first
                (Some Demo.endpoint) 70000)
      as (He & _ & _ & _ & _ & _ & Hsame & _).
    destruct Hsame as (Hv & Hu); [right; right; reflexivity|].
    exact (conj He (conj Hv Hu)).
  - destruct (reset_clears_validators Demo.deps Demo.after_first
                (Some "https://api.example.com/other") 70000)
      as (He & _ & _ & _ & _ & _ & _ & Hother).
    destruct (Hother _ eq_refl) as (Hv & Hu); [discriminate|discriminate|].
    exact (conj He (conj Hv Hu)).
Defined.

(** ** The demand-driven stream *)

Section StreamFacts.

Context {T RawT : Type}.
Variable deps : Collaborators T RawT.
Implicit Types (f : Fetcher T RawT) (now : Z) (s : nat).

Lemma setupPollingTimeout_log f now :
  exists es, log (setupPollingTimeout deps f now) = log f ++ es.
Proof.
  unfold setupPollingTimeout, refreshData_begin, dropPollingTimeout.
  destruct (getRefreshIntervalInMilliseconds f now); [eexists; reflexivity|].
  destruct (pollingTimeout f);
    match goal with
    | |- context [fetch_begin deps ?g now] =>
        destruct (fetch_begin_cases deps g now) as [E|[E|E]]; rewrite E
    end; cbn [fst]; try (exists []; simpl; now rewrite app_nil_r);
    try (eexists; reflexivity);
    rewrite log_requesting; simpl; rewrite <- ?app_assoc; eexists; reflexivity.
Qed.

(** The start callback runs on every subscription that finds the stream
    unobserved, so in particular on every step from zero subscribers to one. *)
Lemma subscribe_starts_polling f s now :
  Rx.observed (dataSubject f) = false ->
  Rx.closed (dataSubject f) = false ->
  exists rest,
    new_events f (stream_step deps f (Subscribe s now)) = StartPolling :: rest.
Proof.
  intros Ho Hc. cbn [stream_step]. unfold PollingSubject_subscribe.
  rewrite Hc. unfold PollingSubject__subscribe. rewrite Ho. cbn [negb].
  destruct (setupPollingTimeout_log (emit f [StartPolling]) now) as (es & Hl).
  set (g := setupPollingTimeout deps (emit f [StartPolling]) now) in *.
  assert (Hg : log g = log f ++ StartPolling :: es)
    by (rewrite Hl; simpl; now rewrite <- app_assoc).
  unfold Rx._subscribe.
  destruct (Rx.closed (dataSubject g)); cbn [fst];
    [exists es; now apply new_events_app|].
  destruct (Rx.hasError (dataSubject g) || Rx.isStopped (dataSubject g));
    cbn [negb fst].
  - eexists. apply new_events_app. simpl. rewrite Hg, <- app_assoc.
    reflexivity.
  - unfold getValue. simpl. destruct (value g); cbn [fst];
      eexists; apply new_events_app; simpl; rewrite Hg, <- ?app_assoc;
      reflexivity.
Qed.

(** [PollingSubject.unsubscribe()] does run the stop callback, and no timer
    is left behind. *)
Lemma unsubscribe_subject_stops_polling f :
  let f' := stream_step deps f UnsubscribeSubject in
  pollingTimeout f' = None
  /\ exists rest, new_events f f' = EndPolling :: rest.
Proof.
  cbn [stream_step]. unfold PollingSubject_unsubscribe, clearPollingTimeout.
  simpl. destruct (pollingTimeout f) eqn:Hp; simpl; (split; [auto|]);
    eexists; apply new_events_app; simpl; rewrite <- ?app_assoc; reflexivity.
Qed.

(** C8, where the code departs from the claim: when the only subscriber
    leaves, the stream is unobserved, yet the stop callback has not run:
    nothing was added to the trace and the timer is as it was. *)
Theorem last_subscriber_leaving_keeps_timer f s :
  Rx.observers (dataSubject f) = [s] ->
  let f' := stream_step deps f (Unsubscribe s) in
  Rx.observed (dataSubject f') = false
  /\ pollingTimeout f' = pollingTimeout f
  /\ new_events f f' = [].
Proof.
  intros Ho. cbn [stream_step]. unfold Subscription_unsubscribe.
  simpl. unfold Rx.observed. simpl. rewrite Ho. simpl. rewrite Nat.eqb_refl.
  repeat split. now apply new_events_same.
Qed.

End StreamFacts.

(** C8 at a concrete run: the engine holds ["A"], fetched at [1001] with a
    refresh interval of [60000]; a first subscriber arrives at [2000], so a
    timer of [59001] is armed, and leaves; the timer stays while nobody
    observes. *)
Lemma last_subscriber_leaving_witness :
  let f := stream_run Demo.deps Demo.after_first [Subscribe 1%nat 2000] in
  let f' := stream_step Demo.deps f (Unsubscribe 1%nat) in
  Rx.observers (dataSubject f) = [1%nat]
  /\ pollingTimeout f = Some 59001
  /\ Rx.observed (dataSubject f') = false
  /\ pollingTimeout f' = Some 59001
  /\ existsb is_EndPolling (log f') = false.
Proof.
  pose proof (last_subscriber_leaving_keeps_timer Demo.deps
                (stream_run Demo.deps Demo.after_first [Subscribe 1%nat 2000])
                1%nat eq_refl) as (Ho & Hp & _).
  split; [reflexivity|]. split; [reflexivity|]. split; [exact Ho|].
  split; [exact Hp|reflexivity].
Defined.

(** A second subscriber arriving before that timer fires arms another one;
    the first is never cleared. *)
Example resubscribe_arms_second_timer :
  log (stream_run Demo.deps Demo.after_first
         [Subscribe 1%nat 2000; Unsubscribe 1%nat; Subscribe 2%nat 3000])
  = log Demo.after_first
    ++ [StartPolling; SetTimeout 59001; SubscriberNext 1%nat "A";
        StartPolling; SetTimeout 58001; SubscriberNext 2%nat "A"].
Proof. reflexivity. Qed.

(** ** The local index overlay *)

Section OverlayFacts.

Context {Item : Type}.
Variable idKey : Item -> Id.
Implicit Types (items : list Item) (id : Id) (k : PropertyKey) (o : Object Item).

Lemma last_with_key_cons k x items :
  last_with_key idKey k (x :: items)
  = match last_with_key idKey k items with
    | Some y => Some y
    | None => if decide (ToPropertyKey (idKey x) = k) then Some x else None
    end.
Proof.
  unfold last_with_key. rewrite filter_cons.
  destruct (decide (ToPropertyKey (idKey x) = k)); [|now destruct (last _)].
  rewrite last_cons. now destruct (last _).
Qed.

Lemma last_with_key_app k items1 items2 :
  last_with_key idKey k (items1 ++ items2)
  = match last_with_key idKey k items2 with
    | Some y => Some y
    | None => last_with_key idKey k items1
    end.
Proof.
  induction items1 as [|x items1 IH].
  - cbn [app]. now destruct (last_with_key idKey k items2).
  - cbn [app]. rewrite !last_with_key_cons, IH.
    now destruct (last_with_key idKey k items2).
Qed.

(** What [last_with_key] finds is an item with that key after which no
    other item has it; it finds nothing only when no item has it. *)
Lemma last_with_key_spec k items :
  match last_with_key idKey k items with
  | Some x =>
      ToPropertyKey (idKey x) = k
      /\ exists before after,
           items = before ++ x :: after
           /\ Forall (fun y => ToPropertyKey (idKey y) <> k) after
  | None => Forall (fun y => ToPropertyKey (idKey y) <> k) items
  end.
Proof.
  induction items as [|x items IH]; [constructor|].
  rewrite last_with_key_cons.
  destruct (last_with_key idKey k items) as [y|].
  - destruct IH as (Hy & before & after & -> & Hafter).
    split; [exact Hy|]. now exists (x :: before), after.
  - destruct (decide (ToPropertyKey (idKey x) = k)) as [Hx|Hx].
    + split; [exact Hx|]. now exists [], items.
    + now constructor.
Qed.

Lemma last_with_key_None k items :
  last_with_key idKey k items = None
  <-> Forall (fun y => ToPropertyKey (idKey y) <> k) items.
Proof.
  pose proof (last_with_key_spec k items) as Hs.
  destruct (last_with_key idKey k items) as [x|]; split; auto; [discriminate|].
  destruct Hs as (Hx & before & after & -> & _). intros Hall.
  apply Forall_app in Hall as [_ Hall]. apply Forall_cons in Hall as [Hne _].
  contradiction.
Qed.

Lemma last_with_key_elem k items x :
  last_with_key idKey k items = Some x ->
  ToPropertyKey (idKey x) = k /\ x ∈ items.
Proof.
  intros Hl. pose proof (last_with_key_spec k items) as Hs. rewrite Hl in Hs.
  destruct Hs as (Hx & before & after & -> & _).
  split; [exact Hx|]. apply elem_of_app. right. now left.
Qed.

(** When the items whose identifier names the property of [id] carry [id]
    itself, the last item with that key is the last item with that
    identifier. *)
Lemma last_with_key_id id items :
  Forall (fun y => ToPropertyKey (idKey y) = ToPropertyKey id -> idKey y = id) items ->
  last_with_key idKey (ToPropertyKey id) items = last_with_id idKey id items.
Proof.
  induction 1 as [|x items Hx _ IH]; [reflexivity|].
  rewrite last_with_key_cons, IH. unfold last_with_id. rewrite filter_cons.
  destruct (decide (idKey x = id)) as [Heq|Hne].
  - rewrite last_cons.
    destruct (decide (ToPropertyKey (idKey x) = ToPropertyKey id)) as [_|Hk];
      [reflexivity|now rewrite Heq in Hk].
  - destruct (decide (ToPropertyKey (idKey x) = ToPropertyKey id)) as [Hk|_];
      [now apply Hx in Hk|].
    now destruct (last _).
Qed.

(** Assigning from left to right: among the own properties the last
    assignment to a key stays, and ['__proto__'] never becomes one; the
    prototype is the last entity assigned to ['__proto__']. *)
Lemma foldl_OrdinarySet items o :
  let o' := foldl (fun map entity =>
                     OrdinarySet map (ToPropertyKey (idKey entity)) entity)
                  o items in
  (forall k, own o' !! k
             = if decide (k = proto_key) then own o !! k
               else match last_with_key idKey k items with
                    | Some x => Some x
                    | None => own o !! k
                    end)
  /\ prototype o'
     = match last_with_key idKey proto_key items with
       | Some x => Some x
       | None => prototype o
       end.
Proof.
  cbn zeta. revert o. induction items as [|x items IH]; intros o.
  - split; [|reflexivity]. intros k. now destruct (decide (k = proto_key)).
  - cbn [foldl].
    destruct (IH (OrdinarySet o (ToPropertyKey (idKey x)) x)) as (Hown & Hproto).
    split.
    + intros k. rewrite Hown, last_with_key_cons. unfold OrdinarySet.
      destruct (decide (k = proto_key)) as [->|Hk].
      * destruct (decide (ToPropertyKey (idKey x) = proto_key)) as [_|Hx];
          cbn [own]; [reflexivity|].
        now apply lookup_insert_ne.
      * destruct (last_with_key idKey k items); [reflexivity|].
        destruct (decide (ToPropertyKey (idKey x) = k)) as [Hx|Hx].
        -- destruct (decide (ToPropertyKey (idKey x) = proto_key)) as [Hp|_];
             [congruence|].
           cbn [own]. rewrite Hx. apply lookup_insert_eq.
        -- destruct (decide (ToPropertyKey (idKey x) = proto_key)) as [_|_];
             cbn [own]; [reflexivity|].
           now apply lookup_insert_ne.
    + rewrite Hproto, last_with_key_cons. unfold OrdinarySet.
      destruct (last_with_key idKey proto_key items); [reflexivity|].
      now destruct (decide (ToPropertyKey (idKey x) = proto_key)).
Qed.

Lemma createById_own items k :
  own (createById idKey items) !! k
  = if decide (k = proto_key) then None else last_with_key idKey k items.
Proof.
  unfold createById.
  destruct (foldl_OrdinarySet items empty_object) as (Hown & _).
  cbn zeta in Hown. rewrite Hown. cbn [empty_object own]. rewrite lookup_empty.
  destruct (decide (k = proto_key)); [reflexivity|].
  now destruct (last_with_key idKey k items).
Qed.

Lemma createById_prototype items :
  prototype (createById idKey items) = last_with_key idKey proto_key items.
Proof.
  unfold createById.
  destruct (foldl_OrdinarySet items empty_object) as (_ & Hproto).
  cbn zeta in Hproto. rewrite Hproto. cbn [empty_object prototype].
  now destruct (last_with_key idKey proto_key items).
Qed.

(** Reading the index of an array in which no identifier is ['__proto__']:
    the last item with the key, and what [Object.prototype] holds under the
    key when there is none. *)
Lemma createById_OrdinaryGet items k :
  no_proto_key idKey items ->
  OrdinaryGet (createById idKey items) k
  = match last_with_key idKey k items with
    | Some x => Some (Entity x)
    | None => Object_prototype_get k
    end.
Proof.
  intros Hnp. apply last_with_key_None in Hnp.
  unfold OrdinaryGet. rewrite createById_own, createById_prototype, Hnp.
  destruct (decide (k = proto_key)) as [->|_].
  - rewrite Hnp. reflexivity.
  - now destruct (last_with_key idKey k items).
Qed.

Lemma dataLoader_emissions_converted (raws : list (RawData (Item := Item))) :
  dataLoader_emissions
    (map (fun raw => UpNext (service_converter idKey raw)) raws)
  = map (fun raw => createLocalDataLoader (createById idKey (raw_items raw))) raws.
Proof.
  induction raws as [|raw raws IH]; [reflexivity|].
  cbn [map dataLoader_emissions]. now rewrite IH.
Qed.

Lemma last_map {A B} (g : A -> B) (l : list A) :
  last (map g l) = option_map g (last l).
Proof.
  induction l as [|a l IH]; [reflexivity|].
  cbn [map]. rewrite !last_cons, IH. now destruct (last l).
Qed.

(** The overlay reads the index of the most recent collection, and has
    nothing to read before the first. *)
Lemma overlay_load_current (raws : list (RawData (Item := Item))) id :
  overlay_load (map (fun raw => UpNext (service_converter idKey raw)) raws) id
  = match last raws with
    | Some raw => OrdinaryGet (createById idKey (raw_items raw)) (ToPropertyKey id)
    | None => None
    end.
Proof.
  unfold overlay_load, current_dataLoader.
  rewrite dataLoader_emissions_converted, last_map.
  now destruct (last raws).
Qed.

(** For an identifier whose key [Object.prototype] does not answer, and
    collections without a ['__proto__'] identifier, [load(id)] answers the
    last item, in array order, of the most recent collection whose
    identifier names the same property as [id]; it answers nothing when
    there is no such item, and when nothing was emitted yet. *)
Lemma overlay_load_own_keys (raws : list (RawData (Item := Item))) id :
  (forall raw, last raws = Some raw -> no_proto_key idKey (raw_items raw)) ->
  Object_prototype_get (Item := Item) (ToPropertyKey id) = None ->
  overlay_load (map (fun raw => UpNext (service_converter idKey raw)) raws) id
  = match last raws with
    | Some raw => Entity <$> last_with_key idKey (ToPropertyKey id) (raw_items raw)
    | None => None
    end.
Proof.
  intros Hnp Hk. rewrite overlay_load_current.
  destruct (last raws) as [raw|]; [|reflexivity].
  rewrite createById_OrdinaryGet by now apply Hnp.
  rewrite Hk. now destruct (last_with_key _ _ _).
Qed.

Lemma Object_prototype_get_member name :
  In name Object_prototype_members ->
  Object_prototype_get (Item := Item) (KString name)
  = Some (ObjectPrototypeMember name).
Proof.
  unfold Object_prototype_members. cbn [In].
  intros H; repeat (destruct H as [<-|H]; [reflexivity|]); destruct H.
Qed.

(** C9: the claim's "absent when no item matches" fails on the names
    [Object.prototype] defines.  After any emissions whose most recent
    collection has no item under such a name (nor under ['__proto__']), no
    item of that collection carries the name as identifier, and yet
    [load(name)] on the overlay answers the built-in of that name instead
    of nothing. *)
Theorem overlay_load_inherited_member
  (raws : list (RawData (Item := Item))) raw name :
  last raws = Some raw ->
  In name Object_prototype_members ->
  Forall (fun entity => ToPropertyKey (idKey entity) <> KString name
                        /\ ToPropertyKey (idKey entity) <> proto_key)
         (raw_items raw) ->
  last_with_id idKey (IdString name) (raw_items raw) = None
  /\ overlay_load (map (fun raw => UpNext (service_converter idKey raw)) raws)
                  (IdString name)
     = Some (ObjectPrototypeMember name).
Proof.
  intros Hlast Hname Hall.
  assert (Hnp : no_proto_key idKey (raw_items raw)).
  { unfold no_proto_key. eapply Forall_impl; [exact Hall|]. now intros x [_ Hx]. }
  assert (Hnone : last_with_key idKey (KString name) (raw_items raw) = None).
  { apply last_with_key_None. eapply Forall_impl; [exact Hall|]. now intros x [Hx _]. }
  split.
  - rewrite <- (last_with_key_id (IdString name)); [exact Hnone|].
    apply Forall_forall. intros x Hx Hk. exfalso.
    apply last_with_key_None in Hnone.
    exact (proj1 (Forall_forall _ _) Hnone x Hx Hk).
  - rewrite overlay_load_current, Hlast.
    rewrite (createById_OrdinaryGet _ _ Hnp). cbn [ToPropertyKey].
    rewrite Hnone. now apply Object_prototype_get_member.
Qed.

(** After an upstream failure the overlay holds the lookup object of [{}],
    which answers what [Object.prototype] does. *)
Lemma overlay_load_after_error (vs : list (Data (Item := Item))) e rest id :
  overlay_load (map UpNext vs ++ UpError e :: rest) id
  = Object_prototype_get (ToPropertyKey id).
Proof.
  unfold overlay_load, current_dataLoader.
  assert (Hl : last (dataLoader_emissions (map UpNext vs ++ UpError e :: rest))
               = Some (createLocalDataLoader (Item := Item) empty_object)).
  { induction vs as [|v vs IH]; [reflexivity|].
    cbn [map app dataLoader_emissions]. rewrite last_cons, IH. reflexivity. }
  rewrite Hl. reflexivity.
Qed.

(** [dataLoaderBatchFromIds] answers each id the same way. *)
Lemma dataLoaderBatchFromIds_spec ids items :
  no_proto_key idKey items ->
  dataLoaderBatchFromIds idKey ids items
  = map (fun id => match last_with_key idKey (ToPropertyKey id) items with
                   | Some x => Some (Entity x)
                   | None => Object_prototype_get (ToPropertyKey id)
                   end) ids.
Proof.
  intros Hnp. unfold dataLoaderBatchFromIds. apply map_ext. intros id.
  now apply createById_OrdinaryGet.
Qed.

End OverlayFacts.

(** C9 at the concrete collection endpoint: after the first payload,
    [load('constructor')] answers [Object.prototype.constructor]. *)
Lemma overlay_load_inherited_member_witness :
  last_with_id fst (IdString "constructor")
    (raw_items DemoService.first_payload) = None
  /\ overlay_load [UpNext (service_converter fst DemoService.first_payload)]
                  (IdString "constructor")
     = Some (ObjectPrototypeMember "constructor").
Proof.
  apply (overlay_load_inherited_member fst [DemoService.first_payload]
           DemoService.first_payload "constructor").
  - reflexivity.
  - left. reflexivity.
  - repeat constructor; discriminate.
Defined.

(** Two emissions, the second renaming item ["x"]; also an array in which
    two items share an identifier. *)
Example overlay_scenario :
  let raws := [mkRawData "a" [(IdString "x", "X")];
               mkRawData "b" [(IdString "x", "X2"); (IdString "y", "Y")]] in
  let up := map (fun raw => UpNext (service_converter fst raw)) raws in
  overlay_load up (IdString "x") = Some (Entity (IdString "x", "X2"))
  /\ overlay_load up (IdString "z") = None
  /\ overlay_load (Item := Id * string) [] (IdString "x") = None
  /\ load (createLocalDataLoader
             (createById fst [(IdString "x", "first"); (IdString "y", "Y");
                              (IdString "x", "second")])) (IdString "x")
     = Some (Entity (IdString "x", "second")).
Proof. vm_compute. repeat split. Qed.

(** The property protocol at work: the empty index answers inherited names;
    the number [1] and the string ['1'] name one property; an entity whose
    identifier is ['__proto__'] becomes the prototype and is no own
    property. *)
Example plain_object_scenario :
  load (createLocalDataLoader (createById (Item := Id * string) fst []))
       (IdString "toString")
  = Some (ObjectPrototypeMember "toString")
  /\ load (createLocalDataLoader (createById fst [(IdString "1", "one")]))
          (IdNumber 1)
     = Some (Entity (IdString "1", "one"))
  /\ last_with_id fst (IdNumber 1) [(IdString "1", "one")] = None
  /\ size (own (createById fst [(IdNumber 1, "a"); (IdString "1", "b")])) = 1%nat
  /\ (let index := createById fst [(IdString "__proto__", "P"); (IdString "x", "X")] in
      size (own index) = 1%nat
      /\ load (createLocalDataLoader index) (IdString "__proto__")
         = Some (Entity (IdString "__proto__", "P"))
      /\ load (createLocalDataLoader index) (IdString "name")
         = Some (PropertyOf (IdString "__proto__", "P") (KString "name"))).
Proof. vm_compute. repeat split. Qed.

(** ** The timer and the refresh interval *)

Section TimerFacts.

Context {T RawT : Type}.
Variable deps : Collaborators T RawT.
Implicit Types (f : Fetcher T RawT) (now : Z).

(** A timer that fires while nobody observes is dropped without a fetch. *)
Lemma onPollingTimeout_unobserved f now :
  Rx.observed (dataSubject f) = false ->
  onPollingTimeout_begin deps f now = (dropPollingTimeout f, Settled (Resolve tt)).
Proof. intros Ho. unfold onPollingTimeout_begin. now rewrite Ho. Qed.

(** Subscribing and leaving never close the stream. *)
Lemma subscriber_ops_keep_stream_open f s now :
  Rx.closed (dataSubject (stream_step deps f (Subscribe s now)))
  = Rx.closed (dataSubject f)
  /\ Rx.closed (dataSubject (stream_step deps f (Unsubscribe s)))
     = Rx.closed (dataSubject f).
Proof.
  split; [|reflexivity].
  cbn [stream_step]. unfold PollingSubject_subscribe.
  destruct (Rx.closed (dataSubject f)) eqn:Hc; [exact Hc|].
  unfold PollingSubject__subscribe.
  set (g := if negb (Rx.observed (dataSubject f))
            then setupPollingTimeout deps (emit f [StartPolling]) now else f).
  assert (Hg : dataSubject g = dataSubject f).
  { subst g. destruct (negb _); [|reflexivity].
    now destruct (setupPollingTimeout_cache deps (emit f [StartPolling]) now)
      as (_ & _ & _ & _ & _ & _ & _ & Hd). }
  unfold Rx._subscribe. rewrite ?Hg, ?Hc.
  destruct (Rx.hasError (dataSubject f) || Rx.isStopped (dataSubject f));
    cbn [negb fst]; [simpl; exact Hc|].
  unfold getValue. simpl. destruct (value g); reflexivity.
Qed.

End TimerFacts.

(** With [refreshInterval = 60000] and no [Expires] header, a [fetch()]
    [59999] ms after the previous one answers from the cache, and one
    [60000] ms after it goes to the network. *)
Example refresh_interval_boundary :
  fetch Demo.deps Demo.after_first 61000 (Failed (OtherError "unused")) 0
  = (Demo.after_first, Resolve (Some "A"))
  /\ snd (fetch_begin Demo.deps Demo.after_first 61001) = AwaitingResponse.
Proof. split; reflexivity. Qed.

(** The request that follows a stored [ETag] carries [If-None-Match]. *)
Example conditional_request :
  getHeaders Demo.deps Demo.after_first = [("If-None-Match", "v1")].
Proof. reflexivity. Qed.

(** * Further properties of the code *)

(** ** The wait and the decision to go to the network *)

Section WaitFacts.

Context {T RawT : Type}.
Variable deps : Collaborators T RawT.
Implicit Types (f : Fetcher T RawT) (now : Z).

Ltac unfold_interval :=
  unfold getRefreshIntervalInMilliseconds, isValidExpiration, expires_minus,
    isValidRefreshInterval, refresh_minus, truthy_Z in *.

Ltac split_tests :=
  repeat match goal with
         | |- context [?a >? ?b] => destruct (Z.gtb_spec a b); simpl
         | |- context [?a =? ?b] => destruct (Z.eqb_spec a b); simpl
         end.

(** X1: a wait is never negative, never reaches past the expiry nor past
    the end of the refresh interval when these lie ahead, and is positive
    only when one of them does. *)
Theorem interval_within_deadlines f now i :
  getRefreshIntervalInMilliseconds f now = Some i ->
  0 <= i
  /\ (forall e, expires f = Some (Num e) -> e <> 0 -> now < e ->
        0 < i <= e - now)
  /\ (forall l r, lastFetchTimestamp f = Some l -> refreshInterval f = Some r ->
        l <> 0 -> r <> 0 -> now < l + r ->
        0 < i <= l + r - now)
  /\ (0 < i ->
      isValidExpiration f now = true \/ isValidRefreshInterval f now = true).
Proof.
  unfold_interval.
  destruct f as [u e x l v p r w d lo lg]; simpl.
  destruct x as [[|x]|], l as [l|], r as [r|], v as [v|]; simpl;
    split_tests; intros [= <-]; simpl in *;
    (split; [lia|]); (split; [intros ? [= <-] ? ?; lia|]);
    (split; [intros ? ? [= <-] [= <-] ? ? ?; lia|]);
    intros ?; try lia; auto.
Qed.

(** The wait of an engine that has a refresh interval and no expiry. *)
Lemma interval_refresh_only f now l r :
  truthy_opt truthy_number (expires f) = false ->
  lastFetchTimestamp f = Some l -> refreshInterval f = Some r ->
  l <> 0 -> r <> 0 ->
  getRefreshIntervalInMilliseconds f now
  = Some (if now <? l + r then l + r - now else 0).
Proof.
  unfold_interval.
  destruct f as [u e x ll v p rr w d lo lg]; simpl.
  intros Hx [= ->] [= ->] Hl Hr.
  destruct x as [[|x]|], v as [v|]; simpl in *;
    try (apply negb_false_iff, Z.eqb_eq in Hx; subst x);
    split_tests; destruct (Z.ltb_spec now (l + r)); try reflexivity;
    try (f_equal; lia); lia.
Qed.

(** X2: with a refresh interval [r] and no expiry, a [fetch()] earlier than
    [r] ms after the last one answers from the cache and leaves the engine
    as it is; from [r] ms on it goes to the network. *)
Theorem fetch_refresh_interval_boundary f l r :
  truthy_opt truthy_number (expires f) = false ->
  lastFetchTimestamp f = Some l -> refreshInterval f = Some r ->
  l <> 0 -> r <> 0 -> url f <> "" ->
  (forall now o now', now < l + r ->
     fetch deps f now o now' = (f, Resolve (value f)))
  /\ (forall now, l + r <= now ->
        fetch_begin deps f now = (requesting deps f, AwaitingResponse)).
Proof.
  intros Hx Hl Hr Hl0 Hr0 Hu. split.
  - intros now o now' Hlt.
    apply (fetch_still_fresh deps f now (l + r - now)); [|lia].
    rewrite (interval_refresh_only f now l r) by assumption.
    destruct (Z.ltb_spec now (l + r)); [reflexivity|lia].
  - intros now Hge. unfold fetch_begin.
    rewrite (interval_refresh_only f now l r) by assumption.
    destruct (Z.ltb_spec now (l + r)); [lia|].
    cbn [defined negb andb default from_option id Z.gtb Z.compare].
    unfold truthy_string. apply String.eqb_neq in Hu. rewrite Hu.
    reflexivity.
Qed.

(** X3: an engine that knows a value and has neither an expiry nor a
    refresh interval answers every [fetch()] from the cache, untouched,
    unless [fetchRefreshesWithoutInterval] is set, in which case every
    [fetch()] goes to the network. *)
Theorem fetch_without_freshness_signal f v :
  value f = Some v ->
  truthy_opt truthy_number (expires f) = false ->
  truthy_opt truthy_Z (refreshInterval f) = false ->
  (fetchRefreshesWithoutInterval f = false ->
     forall now o now', fetch deps f now o now' = (f, Resolve (Some v)))
  /\ (fetchRefreshesWithoutInterval f = true -> url f <> "" ->
        forall now, fetch_begin deps f now = (requesting deps f, AwaitingResponse)).
Proof.
  intros Hv Hx Hr.
  assert (Hi : forall now, getRefreshIntervalInMilliseconds f now = None).
  { intros now. unfold_interval.
    destruct f as [u e x l vv p r w d lo lg]; simpl in *. subst vv.
    destruct x as [[|x]|], l as [l|], r as [r|]; simpl in *;
      try (apply negb_false_iff, Z.eqb_eq in Hx; subst x);
      try (apply negb_false_iff, Z.eqb_eq in Hr; subst r);
      split_tests; try reflexivity; simpl in *; lia. }
  split.
  - intros Hw now o now'. unfold fetch, fetch_begin. now rewrite Hi, Hw, Hv.
  - intros Hw Hu now. unfold fetch_begin. rewrite Hi, Hw.
    cbn [defined negb andb default from_option Z.gtb Z.compare].
    unfold truthy_string. apply String.eqb_neq in Hu. now rewrite Hu.
Qed.

End WaitFacts.

Lemma interval_within_deadlines_witness :
  getRefreshIntervalInMilliseconds Demo.after_first 2000 = Some 59001
  /\ 0 < 59001 <= 1001 + 60000 - 2000.
Proof.
  destruct (interval_within_deadlines Demo.after_first 2000 59001 eq_refl)
    as (_ & _ & Hr & _).
  split; [reflexivity|].
  apply (Hr 1001 60000); [reflexivity|reflexivity|lia|lia|lia].
Defined.

Lemma fetch_refresh_interval_boundary_witness :
  fetch Demo.deps Demo.after_first 61000 (Failed (OtherError "unused")) 0
  = (Demo.after_first, Resolve (Some "A"))
  /\ fetch_begin Demo.deps Demo.after_first 61001
     = (requesting Demo.deps Demo.after_first, AwaitingResponse).
Proof.
  destruct (fetch_refresh_interval_boundary Demo.deps Demo.after_first 1001 60000)
    as (Hfresh & Hstale);
    [reflexivity|reflexivity|reflexivity|lia|lia|discriminate|].
  split; [apply Hfresh; lia|apply Hstale; lia].
Defined.

Lemma fetch_without_freshness_signal_witness :
  let f := fst (fetch Demo.deps Demo.fresh 1000
                  (Demo.response 200 [("ETag", "v1")] (Some "A")) 1001) in
  fetch Demo.deps f 86400000 (Demo.response 200 [("ETag", "v2")] (Some "B")) 86400001
  = (f, Resolve (Some "A")).
Proof.
  destruct (fetch_without_freshness_signal Demo.deps
              (fst (fetch Demo.deps Demo.fresh 1000
                      (Demo.response 200 [("ETag", "v1")] (Some "A")) 1001))
              "A" eq_refl eq_refl eq_refl) as (Hnever & _).
  exact (Hnever eq_refl 86400000
           (Demo.response 200 [("ETag", "v2")] (Some "B")) 86400001).
Defined.

(** ** What one fetch does, path by path *)

Section FetchPaths.

Context {T RawT : Type}.
Variable deps : Collaborators T RawT.
Implicit Types (f : Fetcher T RawT) (r : HttpResponse RawT) (now : Z).

Ltac awaited H f now :=
  unfold fetch;
  let E := fresh "E" in
  destruct (fetch_begin_cases deps f now) as [E|[E|E]]; rewrite E in H |- *;
  [discriminate H | discriminate H | cbn [fst snd]].

(** X4: a response whose status is neither [200] nor [304] makes [fetch()]
    fail with an error that carries the status and the URL; the cache state
    is what it was, and loading has been switched on and off around the
    request. *)
Theorem fetch_unexpected_status f now1 now2 r :
  snd (fetch_begin deps f now1) = AwaitingResponse ->
  status r <> 200 -> status r <> 304 ->
  let f' := fst (fetch deps f now1 (Responded r) now2) in
  snd (fetch deps f now1 (Responded r) now2)
  = Reject (UnexpectedResponseError (status r) (url f))
  /\ same_cache f f'
  /\ loading f' = false
  /\ new_events f f'
     = [LoadingNext true; HttpGet (url f) (getHeaders deps f); LoadingNext false].
Proof.
  intros Ha H2 H3. awaited Ha f now1.
  rewrite fetch_resume_unexpected by assumption. cbn [fst snd].
  split; [reflexivity|]. split; [now repeat split|]. split; [reflexivity|].
  apply new_events_app. simpl. now rewrite <- !app_assoc.
Qed.

(** X5: an engine whose URL is empty never reaches the transport and never
    changes: [fetch()] answers from the cache while the value is fresh or
    exempt from refreshing, and fails with "url is not set" otherwise. *)
Theorem fetch_without_url f now1 o now2 :
  url f = "" ->
  fst (fetch deps f now1 o now2) = f
  /\ (snd (fetch deps f now1 o now2) = Resolve (value f)
      \/ snd (fetch deps f now1 o now2) = Reject UrlNotSetError)
  /\ (getRefreshIntervalInMilliseconds f now1 = Some 0 ->
      snd (fetch deps f now1 o now2) = Reject UrlNotSetError).
Proof.
  intros Hu. unfold fetch, fetch_begin, truthy_string. rewrite Hu.
  destruct (getRefreshIntervalInMilliseconds f now1) as [i|];
    cbn [defined negb andb default from_option id String.eqb].
  - destruct (Z.gtb_spec i 0); cbn [fst snd];
      (split; [reflexivity|]); (split; [auto|]); intros [= ->]; [lia|reflexivity].
  - destruct (fetchRefreshesWithoutInterval f); cbn [negb fst snd Z.gtb Z.compare];
      (split; [reflexivity|]); (split; [auto|]); discriminate.
Qed.

(** X6: when [fetch()] resolves, it resolves with the value the engine
    holds at that moment. *)
Theorem fetch_resolves_with_held_value f now1 o now2 v :
  snd (fetch deps f now1 o now2) = Resolve v ->
  v = value (fst (fetch deps f now1 o now2)).
Proof.
  unfold fetch.
  destruct (fetch_begin_cases deps f now1) as [E|[E|E]]; rewrite E; cbn [fst snd];
    [now intros [= <-] | discriminate |].
  unfold fetch_resume. destruct o as [r|e]; [|discriminate].
  destruct (negb _ && negb _); [discriminate|].
  destruct (status r =? _); [now intros [= <-]|].
  destruct (negb (truthy_opt _ _)); [now intros [= <-]|].
  destruct (body r) as [raw|]; [|now intros [= <-]].
  destruct (converter deps raw) as [e|v']; [discriminate|].
  destruct (match value _ with Some v0 => negb (isEqual deps v0 v') | None => true end);
    [|now intros [= <-]].
  destruct (dataSubject_next _ v') as [e|f2]; [discriminate|now intros [= <-]].
Qed.

(** X7: a [200] whose body converts to a value that is a change is taken
    in: the value is stored and [fetch()] resolves with it; a live stream
    sends it to its observers once, a stream that has already stopped sends
    nothing. *)
Theorem fetch_accepts_new_value f now1 now2 r raw v' :
  snd (fetch_begin deps f now1) = AwaitingResponse ->
  status r = 200 -> body r = Some raw -> truthy_body deps raw = true ->
  converter deps raw = inr v' -> is_change deps f v' ->
  Rx.closed (dataSubject f) = false ->
  let f' := fst (fetch deps f now1 (Responded r) now2) in
  snd (fetch deps f now1 (Responded r) now2) = Resolve (Some v')
  /\ value f' = Some v'
  /\ data_emissions (new_events f f')
     = (if Rx.isStopped (dataSubject f) then [] else [v'])
  /\ existsb is_HttpGet (new_events f f') = true.
Proof.
  intros Ha H2 Hr Hb Hc Hch Hcl. awaited Ha f now1.
  rewrite (fetch_resume_200_changed deps (requesting deps f) r now2 raw v')
    by assumption.
  unfold dataSubject_next, Rx.next. cbn [dataSubject set_value emit revalidated requesting loadingSubject_next].
  rewrite Hcl.
  destruct (Rx.isStopped (dataSubject f)); cbn [fst snd value set_dataSubject set_value emit].
  - rewrite (new_events_trans f (requesting deps f) _ _
               [LoadingNext false; ConverterCall raw] (log_requesting deps f))
      by (simpl; now rewrite <- !app_assoc).
    now repeat split.
  - rewrite (new_events_trans f (requesting deps f) _ _
               [LoadingNext false; ConverterCall raw; DataNext v']
               (log_requesting deps f))
      by (simpl; now rewrite <- !app_assoc).
    now repeat split.
Qed.

End FetchPaths.

(** ** Request headers *)

Section HeaderFacts.

Context {T RawT : Type}.
Variable deps : Collaborators T RawT.
Implicit Types (f : Fetcher T RawT) (h : HttpHeaders) (name : string).

Lemma headers_get_set_same h name v :
  headers_get (headers_set h name v) name = Some v.
Proof. unfold headers_set. cbn [headers_get]. now rewrite String.eqb_refl. Qed.

Lemma headers_count_filter_out h name :
  headers_count (filter (fun p => String.eqb (fst p) name = false) h) name = 0%nat.
Proof.
  unfold headers_count. induction h as [|[n v] h IH]; [reflexivity|].
  cbn [filter list_filter fst].
  destruct (decide (String.eqb n name = false)) as [Hn|Hn]; [|exact IH].
  cbn [filter list_filter fst].
  destruct (decide (String.eqb n name = true)); [congruence|exact IH].
Qed.

(** X8: when a non-empty [etag] is held, the request headers carry it as
    [If-None-Match], in one entry only, whatever the auth provider supplied
    under that name; when no [etag] is held, or an empty one, the request
    headers are the auth headers as they are. *)
Theorem getHeaders_carries_etag f :
  (forall e, etag f = Some e -> e <> "" ->
     headers_get (getHeaders deps f) "If-None-Match" = Some e
     /\ headers_count (getHeaders deps f) "If-None-Match" = 1%nat)
  /\ (etag f = None \/ etag f = Some "" ->
      getHeaders deps f = getAuthHeaders deps).
Proof.
  unfold getHeaders, truthy_string. split.
  - intros e -> He. apply String.eqb_neq in He. rewrite He. cbn [negb].
    split; [apply headers_get_set_same|].
    unfold headers_set, headers_count. cbn [filter list_filter fst].
    destruct (decide (String.eqb "If-None-Match" "If-None-Match" = true)) as [_|Hn];
      [|now rewrite String.eqb_refl in Hn].
    cbn [length]. f_equal. apply headers_count_filter_out.
  - intros [-> | ->]; reflexivity.
Qed.

(** X9: the validator makes the round trip: after a [fetch()] that received
    a [200] or a [304], the next request carries the [ETag] of that response
    as [If-None-Match], and carries none when the response had none, whatever
    the engine held before. *)
Theorem next_request_carries_last_etag f now1 now2 r :
  snd (fetch_begin deps f now1) = AwaitingResponse ->
  status r = 200 \/ status r = 304 ->
  let f' := fst (fetch deps f now1 (Responded r) now2) in
  (forall e, headers_get (headers r) "ETag" = Some e -> e <> "" ->
     headers_get (getHeaders deps f') "If-None-Match" = Some e)
  /\ (headers_get (headers r) "ETag" = None ->
      getHeaders deps f' = getAuthHeaders deps).
Proof.
  intros Ha Hs. unfold fetch.
  destruct (fetch_begin_cases deps f now1) as [E|[E|E]]; rewrite E in Ha |- *;
    [discriminate Ha | discriminate Ha | cbn [fst snd]].
  destruct (fetch_resume_validators deps (requesting deps f) r now2 Hs)
    as (He & _).
  set (f' := fst (fetch_resume deps (requesting deps f) (Responded r) now2)) in *.
  unfold getHeaders, truthy_string. rewrite He. split.
  - intros e -> Hne. apply String.eqb_neq in Hne. rewrite Hne. cbn [negb].
    apply headers_get_set_same.
  - now intros ->.
Qed.

End HeaderFacts.

(** The fetch paths and the headers at the concrete endpoint. *)
Lemma fetch_unexpected_status_witness :
  let o := Demo.response 204 [("ETag", "v9")] None in
  let f' := fst (fetch Demo.deps Demo.after_first 70000 o 70001) in
  snd (fetch Demo.deps Demo.after_first 70000 o 70001)
  = Reject (UnexpectedResponseError 204 Demo.endpoint)
  /\ etag f' = Some "v1" /\ lastFetchTimestamp f' = Some 1001
  /\ loading f' = false.
Proof.
  destruct (fetch_unexpected_status Demo.deps Demo.after_first 70000 70001
              (mkResponse 204 [("ETag", "v9")] None) eq_refl)
    as (Hs & Hc & Hl & _); [discriminate|discriminate|].
  destruct Hc as (_ & He & _ & Ht & _).
  exact (conj Hs (conj He (conj Ht Hl))).
Defined.

Lemma fetch_without_url_witness :
  fetch Demo.deps (new_Fetcher "" None false) 1000
    (Demo.response 200 [] (Some "A")) 1001
  = (new_Fetcher "" None false, Reject UrlNotSetError).
Proof.
  destruct (fetch_without_url Demo.deps (new_Fetcher "" None false) 1000
              (Demo.response 200 [] (Some "A")) 1001 eq_refl)
    as (Hf & _ & Hs).
  rewrite (surjective_pairing (fetch _ _ _ _ _)), Hf, (Hs eq_refl).
  reflexivity.
Defined.

Lemma fetch_resolves_with_held_value_witness :
  let c := fetch Demo.deps Demo.after_first 70000
             (Demo.response 200 [("ETag", "v2")] (Some "B")) 70001 in
  snd c = Resolve (Some "B") /\ value (fst c) = Some "B".
Proof.
  split; [reflexivity|].
  symmetry.
  exact (fetch_resolves_with_held_value Demo.deps Demo.after_first 70000
           (Demo.response 200 [("ETag", "v2")] (Some "B")) 70001 (Some "B")
           eq_refl).
Defined.

Lemma fetch_accepts_new_value_witness :
  let o := Demo.response 200 [("ETag", "v2")] (Some "B") in
  let f' := fst (fetch Demo.deps Demo.after_first 70000 o 70001) in
  snd (fetch Demo.deps Demo.after_first 70000 o 70001) = Resolve (Some "B")
  /\ value f' = Some "B"
  /\ data_emissions (new_events Demo.after_first f') = ["B"]
  /\ existsb is_HttpGet (new_events Demo.after_first f') = true.
Proof.
  apply (fetch_accepts_new_value Demo.deps Demo.after_first 70000 70001
           (mkResponse 200 [("ETag", "v2")] (Some "B")) "B" "B");
    try reflexivity.
  right. exists "A". split; reflexivity.
Defined.

Lemma getHeaders_carries_etag_witness :
  headers_get (getHeaders Demo.deps Demo.after_first) "If-None-Match" = Some "v1"
  /\ headers_count (getHeaders Demo.deps Demo.after_first) "If-None-Match" = 1%nat
  /\ getHeaders Demo.deps Demo.fresh = [].
Proof.
  destruct (getHeaders_carries_etag Demo.deps Demo.after_first) as (He & _).
  destruct (getHeaders_carries_etag Demo.deps Demo.fresh) as (_ & Hn).
  destruct (He "v1" eq_refl) as (Hg & Hc); [discriminate|].
  exact (conj Hg (conj Hc (Hn (or_introl eq_refl)))).
Defined.

Lemma next_request_carries_last_etag_witness :
  let f' := fst (fetch Demo.deps Demo.after_first 70000
                   (Demo.response 304 [("ETag", "v2")] None) 70001) in
  headers_get (getHeaders Demo.deps f') "If-None-Match" = Some "v2".
Proof.
  destruct (next_request_carries_last_etag Demo.deps Demo.after_first 70000 70001
              (mkResponse 304 [("ETag", "v2")] None) eq_refl (or_intror eq_refl))
    as (He & _).
  apply He; [reflexivity|discriminate].
Defined.

(** ** The polling loop *)

Section PollingFacts.

Context {T RawT : Type}.
Variable deps : Collaborators T RawT.
Implicit Types (f : Fetcher T RawT) (r : HttpResponse RawT) (now : Z) (s : nat).

(** [fetch()] hands values to the stream but never alters the stream
    itself. *)
Lemma fetch_keeps_dataSubject f now1 o now2 :
  dataSubject (fst (fetch deps f now1 o now2)) = dataSubject f.
Proof.
  unfold fetch.
  destruct (fetch_begin_cases deps f now1) as [E|[E|E]]; rewrite E; try reflexivity.
  unfold fetch_resume. destruct o as [r|e]; [|reflexivity].
  destruct (negb _ && negb _); [reflexivity|].
  destruct (status r =? _); [reflexivity|].
  destruct (negb (truthy_opt _ _)); [reflexivity|].
  destruct (body r) as [raw|]; [|reflexivity].
  destruct (converter deps raw) as [e|v']; [reflexivity|].
  destruct (match value _ with Some v => negb (isEqual deps v v') | None => true end);
    [|reflexivity].
  unfold dataSubject_next, Rx.next; simpl.
  destruct (Rx.closed (dataSubject f)), (Rx.isStopped (dataSubject f));
    reflexivity.
Qed.

(** What [fetch()] can fail with once the transport has answered with a
    response. *)
Lemma fetch_response_failures f now1 r now2 e :
  snd (fetch deps f now1 (Responded r) now2) = Reject e ->
  e = UrlNotSetError
  \/ e = UnexpectedResponseError (status r) (url f)
  \/ e = ObjectUnsubscribedError
  \/ exists raw, body r = Some raw /\ converter deps raw = inl e.
Proof.
  unfold fetch.
  destruct (fetch_begin_cases deps f now1) as [E|[E|E]]; rewrite E; cbn [fst snd];
    [discriminate | intros [= <-]; now left |].
  unfold fetch_resume.
  destruct (negb _ && negb _); [intros [= <-]; right; now left|].
  destruct (status r =? _); [discriminate|].
  destruct (negb (truthy_opt _ _)); [discriminate|].
  destruct (body r) as [raw|]; [|discriminate].
  destruct (converter deps raw) as [e'|v'] eqn:Hc;
    [intros [= <-]; right; right; right; now exists raw|].
  destruct (match value _ with Some v => negb (isEqual deps v v') | None => true end);
    [|discriminate].
  unfold dataSubject_next, Rx.next; simpl.
  destruct (Rx.closed (dataSubject f)), (Rx.isStopped (dataSubject f));
    try discriminate; intros [= <-]; right; right; now left.
Qed.

(** X10: as long as the stream has not been closed, [refreshData()] never
    rejects, whatever the transport or the converter do, and it leaves the
    stream unclosed. *)
Theorem refreshData_never_rejects f now1 o now2 now3 :
  Rx.closed (dataSubject f) = false ->
  snd (refreshData deps f now1 o now2 now3) = Resolve tt
  /\ Rx.closed (dataSubject (fst (refreshData deps f now1 o now2 now3))) = false.
Proof.
  intros Hc. unfold refreshData.
  pose proof (fetch_keeps_dataSubject f now1 o now2) as Hd.
  destruct (fetch deps f now1 o now2) as [f1 [v|e]]; cbn [fst snd] in *.
  - now rewrite Hd.
  - unfold refreshData_catch.
    destruct e as [| | st h | |]; cbn [fst snd]; try (now rewrite Hd).
    destruct (negb (st =? HttpStatusCode_NotModified)); cbn [fst snd];
      [|split; [reflexivity|simpl; now rewrite Hd]].
    unfold dataSubject_error, Rx.error. rewrite Hd, Hc.
    destruct (Rx.isStopped (dataSubject f)); cbn [fst snd];
      (split; [reflexivity|simpl; try exact Hc; reflexivity]).
Qed.

(** X11: a response, whatever its status, never makes the polling loop
    error the stream: the failures [fetch()] raises by itself (no URL, an
    unexpected status such as [204]) and a converter failure that is no
    [HttpErrorResponse] are swallowed by [refreshData()]. *)
Theorem refreshData_swallows_response_failures f now1 r now2 now3 :
  (forall raw e, converter deps raw = inl e ->
     instanceof_HttpErrorResponse e = false) ->
  refreshData deps f now1 (Responded r) now2 now3
  = (fst (fetch deps f now1 (Responded r) now2), Resolve tt)
  /\ dataSubject (fst (refreshData deps f now1 (Responded r) now2 now3))
     = dataSubject f.
Proof.
  intros Hconv.
  assert (Heq : refreshData deps f now1 (Responded r) now2 now3
                = (fst (fetch deps f now1 (Responded r) now2), Resolve tt)).
  { unfold refreshData.
    pose proof (fetch_response_failures f now1 r now2) as Hfail.
    destruct (fetch deps f now1 (Responded r) now2) as [f1 [v|e]];
      cbn [fst snd] in *; [reflexivity|].
    destruct (Hfail e eq_refl) as [->|[->|[->|(raw & _ & Hc)]]];
      try reflexivity.
    apply Hconv in Hc. unfold refreshData_catch.
    destruct e; try discriminate Hc; reflexivity. }
  split; [exact Heq|]. rewrite Heq. apply fetch_keeps_dataSubject.
Qed.

(** X12: the way polling does end after the last subscriber has left: when
    the timer fires on the unobserved stream, [onPollingTimeout()] makes no
    request, drops the timer and leaves the cache state alone. *)
Theorem timer_fires_after_last_subscriber_left f s now :
  Rx.observers (dataSubject f) = [s] ->
  let f1 := stream_step deps f (Unsubscribe s) in
  let f2 := fst (onPollingTimeout_begin deps f1 now) in
  snd (onPollingTimeout_begin deps f1 now) = Settled (Resolve tt)
  /\ pollingTimeout f2 = None
  /\ existsb is_HttpGet (new_events f f2) = false
  /\ value f2 = value f /\ etag f2 = etag f.
Proof.
  intros Ho. cbn [stream_step]. unfold onPollingTimeout_begin, Subscription_unsubscribe.
  cbn [dataSubject set_dataSubject]. unfold Rx.observed.
  cbn [Rx.observers Rx.Subscription_unsubscribe]. rewrite Ho.
  cbn [Rx.arrRemove]. rewrite Nat.eqb_refl. cbn [negb fst snd].
  unfold dropPollingTimeout. cbn [pollingTimeout set_dataSubject].
  destruct (pollingTimeout f) eqn:Hp; cbn [pollingTimeout set_pollingTimeout emit set_dataSubject value etag].
  - rewrite (new_events_app f _ [ClearTimeout]) by reflexivity. now repeat split.
  - rewrite new_events_same by reflexivity. now repeat split.
Qed.

(** X13: the polling period is the refresh interval, counted from the
    moment the response came in: after a poll answered at [now2] by a [200]
    or a [304] without [Expires], the timer is re-armed at [now3] for
    [now2 + refreshInterval - now3] ms. *)
Theorem poll_rearms_for_refresh_interval f now1 r now2 now3 now4 ri v :
  snd (fetch_begin deps f now1) = AwaitingResponse ->
  status r = 200 \/ status r = 304 ->
  headers_get (headers r) "Expires" = None ->
  snd (fetch deps f now1 (Responded r) now2) = Resolve v ->
  refreshInterval f = Some ri -> ri <> 0 -> now2 <> 0 ->
  now2 <= now4 < now2 + ri ->
  Rx.observed (dataSubject f) = true ->
  let f1 := fst (refreshData deps f now1 (Responded r) now2 now3) in
  let f2 := onPollingTimeout_resume deps f1 now4 in
  pollingTimeout f2 = Some (now2 + ri - now4)
  /\ new_events f1 f2 = [SetTimeout (now2 + ri - now4)].
Proof.
  intros Ha Hs Hx Hres Hri Hri0 Hn2 Hn4 Hobs.
  assert (Hf1 : fst (refreshData deps f now1 (Responded r) now2 now3)
                = fst (fetch deps f now1 (Responded r) now2)).
  { unfold refreshData.
    destruct (fetch deps f now1 (Responded r) now2) as [f1 [v0|e]];
      [reflexivity|discriminate Hres]. }
  rewrite Hf1. clear Hf1.
  pose proof (fetch_keeps_dataSubject f now1 (Responded r) now2) as Hd.
  assert (Hv : let f1 := fst (fetch deps f now1 (Responded r) now2) in
               expires f1 = None /\ lastFetchTimestamp f1 = Some now2
               /\ refreshInterval f1 = Some ri).
  { unfold fetch in *.
    destruct (fetch_begin_cases deps f now1) as [E|[E|E]]; rewrite E in Ha |- *;
      [discriminate Ha | discriminate Ha | cbn [fst snd]].
    destruct (fetch_resume_validators deps (requesting deps f) r now2 Hs)
      as (_ & Hx' & Hl & _).
    rewrite Hx in Hx'. split; [exact Hx'|]. split; [exact Hl|].
    clear - Hri. unfold fetch_resume.
    destruct (negb _ && negb _); [exact Hri|].
    destruct (status r =? _); [exact Hri|].
    destruct (negb (truthy_opt _ _)); [exact Hri|].
    destruct (body r) as [raw|]; [|exact Hri].
    destruct (converter deps raw) as [e|v']; [exact Hri|].
    destruct (match value _ with Some v => negb (isEqual deps v v') | None => true end);
      [|exact Hri].
    unfold dataSubject_next, Rx.next; simpl.
    destruct (Rx.closed (dataSubject f)), (Rx.isStopped (dataSubject f));
      exact Hri. }
  set (f1 := fst (fetch deps f now1 (Responded r) now2)) in *.
  destruct Hv as (Hx1 & Hl1 & Hr1).
  unfold onPollingTimeout_resume. rewrite Hd, Hobs. cbn [negb].
  unfold setupPollingTimeout.
  rewrite (interval_refresh_only f1 now4 now2 ri)
    by (try rewrite Hx1; auto).
  destruct (Z.ltb_spec now4 (now2 + ri)); [|lia].
  split; [reflexivity|]. now apply new_events_app.
Qed.

End PollingFacts.

(** The polling loop at the concrete endpoint, observed by subscriber [1]. *)
Lemma refreshData_never_rejects_witness :
  snd (refreshData Demo.deps Demo.after_first 70000
         (Failed (HttpErrorResponse 500 [])) 70001 70002)
  = Resolve tt.
Proof.
  exact (proj1 (refreshData_never_rejects Demo.deps Demo.after_first 70000
                  (Failed (HttpErrorResponse 500 [])) 70001 70002 eq_refl)).
Defined.

Lemma refreshData_swallows_response_failures_witness :
  let f' := fst (refreshData Demo.deps Demo.after_first 70000
                   (Demo.response 204 [] None) 70001 70002) in
  dataSubject f' = dataSubject Demo.after_first
  /\ Rx.hasError (dataSubject f') = false.
Proof.
  assert (Hconv : forall raw e, converter Demo.deps raw = inl e ->
                    instanceof_HttpErrorResponse e = false).
  { intros raw e. cbn [converter Demo.deps]. unfold Demo.converter.
    destruct (String.eqb raw "malformed"); [|discriminate].
    now intros [= <-]. }
  destruct (refreshData_swallows_response_failures Demo.deps Demo.after_first
              70000 (mkResponse 204 [] None) 70001 70002 Hconv) as (_ & Hd).
  split; [exact Hd|]. reflexivity.
Defined.

Lemma timer_fires_after_last_subscriber_left_witness :
  let f := stream_run Demo.deps Demo.after_first [Subscribe 1%nat 2000] in
  let f1 := stream_step Demo.deps f (Unsubscribe 1%nat) in
  pollingTimeout f1 = Some 59001
  /\ pollingTimeout (fst (onPollingTimeout_begin Demo.deps f1 61001)) = None
  /\ existsb is_HttpGet
       (new_events f (fst (onPollingTimeout_begin Demo.deps f1 61001))) = false.
Proof.
  destruct (timer_fires_after_last_subscriber_left Demo.deps
              (stream_run Demo.deps Demo.after_first [Subscribe 1%nat 2000])
              1%nat 61001 eq_refl) as (_ & Hp & Hg & _).
  split; [reflexivity|]. exact (conj Hp Hg).
Defined.

Lemma poll_rearms_for_refresh_interval_witness :
  let f := stream_run Demo.deps Demo.after_first [Subscribe 1%nat 2000] in
  let f1 := fst (refreshData Demo.deps f 70000
                   (Demo.response 304 [("ETag", "v1")] None) 70001 70002) in
  pollingTimeout (onPollingTimeout_resume Demo.deps f1 70005) = Some 59996.
Proof.
  apply (poll_rearms_for_refresh_interval Demo.deps
           (stream_run Demo.deps Demo.after_first [Subscribe 1%nat 2000])
           70000 (mkResponse 304 [("ETag", "v1")] None) 70001 70002 70005
           60000 (Some "A"));
    try reflexivity; try discriminate; try lia.
  right; reflexivity.
Defined.

(** ** Subscribing *)

Section SubscribeFacts.

Context {T RawT : Type}.
Variable deps : Collaborators T RawT.
Implicit Types (f : Fetcher T RawT) (now : Z) (s : nat).

(** Arming the timer tells no subscriber anything. *)
Lemma setupPollingTimeout_quiet f now :
  exists es,
    log (setupPollingTimeout deps f now) = log f ++ es
    /\ existsb is_SubscriberNext es = false.
Proof.
  unfold setupPollingTimeout, refreshData_begin, dropPollingTimeout.
  destruct (getRefreshIntervalInMilliseconds f now) as [i|];
    [exists [SetTimeout i]; now split|].
  destruct (pollingTimeout f);
    match goal with
    | |- context [fetch_begin deps ?g now] =>
        destruct (fetch_begin_cases deps g now) as [E|[E|E]]; rewrite E
    end; cbn [fst refreshData_catch].
  - exists [ClearTimeout]. now split.
  - exists [ClearTimeout]. now split.
  - eexists. rewrite log_requesting. cbn [log set_pollingTimeout emit].
    rewrite <- app_assoc. split; [reflexivity|reflexivity].
  - exists []. now rewrite app_nil_r.
  - exists []. now rewrite app_nil_r.
  - eexists. rewrite log_requesting. split; [reflexivity|reflexivity].
Qed.

(** What [_subscribe] has done before it reaches the rxjs [Subject]: the
    start callback on an unobserved stream, nothing on an observed one.  The
    stream and the value are as before either way. *)
Lemma start_if_unobserved f now :
  let g := if negb (Rx.observed (dataSubject f))
           then setupPollingTimeout deps (emit f [StartPolling]) now else f in
  dataSubject g = dataSubject f
  /\ value g = value f
  /\ exists es,
       log g = log f ++ es
       /\ existsb is_SubscriberNext es = false
       /\ (Rx.observed (dataSubject f) = true -> es = [] /\ g = f)
       /\ (Rx.observed (dataSubject f) = false -> exists es', es = StartPolling :: es').
Proof.
  destruct (Rx.observed (dataSubject f)); cbn [negb].
  - split; [reflexivity|]. split; [reflexivity|]. exists [].
    rewrite app_nil_r. repeat split; discriminate.
  - destruct (setupPollingTimeout_cache deps (emit f [StartPolling]) now)
      as (_ & _ & _ & _ & Hv & _ & _ & Hd).
    destruct (setupPollingTimeout_quiet (emit f [StartPolling]) now)
      as (es & Hl & Hq).
    split; [exact Hd|]. split; [exact Hv|].
    exists (StartPolling :: es). split; [rewrite Hl; simpl; now rewrite <- app_assoc|].
    split; [exact Hq|]. split; [discriminate|]. intros _. now exists es.
Qed.

(** X14: a subscriber that joins a live stream is admitted, and is told the
    held value at once, as the last thing that happens, when there is one; it
    is told nothing when there is none. *)
Theorem subscribe_replays_held_value f s now :
  Rx.closed (dataSubject f) = false ->
  Rx.isStopped (dataSubject f) = false ->
  Rx.hasError (dataSubject f) = false ->
  let f' := fst (PollingSubject_subscribe deps f s now) in
  snd (PollingSubject_subscribe deps f s now) = inr false
  /\ Rx.observers (dataSubject f') = Rx.observers (dataSubject f) ++ [s]
  /\ value f' = value f
  /\ match value f with
     | Some v =>
         exists before,
           new_events f f' = before ++ [SubscriberNext s v]
           /\ existsb is_SubscriberNext before = false
     | None => existsb is_SubscriberNext (new_events f f') = false
     end.
Proof.
  intros Hc Hs He. unfold PollingSubject_subscribe. rewrite Hc.
  unfold PollingSubject__subscribe.
  destruct (start_if_unobserved f now) as (Hd & Hv & es & Hl & Hq & _).
  set (g := if negb (Rx.observed (dataSubject f))
            then setupPollingTimeout deps (emit f [StartPolling]) now else f) in *.
  unfold Rx._subscribe. rewrite Hd, Hc, He, Hs. cbn [orb negb concat map].
  unfold getValue. cbn [value emit set_dataSubject]. rewrite Hv.
  destruct (value f) as [v|]; cbn [fst snd dataSubject emit set_dataSubject Rx.observers value].
  - split; [reflexivity|]. split; [reflexivity|]. split; [exact Hv|].
    exists es. split; [|exact Hq].
    apply new_events_app. cbn [log emit set_dataSubject].
    now rewrite Hl, app_nil_r, <- app_assoc.
  - split; [reflexivity|]. split; [reflexivity|]. split; [exact Hv|].
    rewrite (new_events_app f _ es); [exact Hq|].
    cbn [log emit set_dataSubject]. now rewrite Hl, app_nil_r.
Qed.

(** X15: a subscriber that joins a stream already observed does not start
    polling again: the timer, the loading flag and the cache state are
    untouched, and the only event is the replay of the held value. *)
Theorem subscribe_when_observed f s now :
  Rx.observed (dataSubject f) = true ->
  Rx.closed (dataSubject f) = false ->
  Rx.isStopped (dataSubject f) = false ->
  Rx.hasError (dataSubject f) = false ->
  let f' := fst (PollingSubject_subscribe deps f s now) in
  pollingTimeout f' = pollingTimeout f
  /\ loading f' = loading f
  /\ new_events f f'
     = match value f with
       | Some v => [SubscriberNext s v]
       | None => []
       end.
Proof.
  intros Ho Hc Hs He. unfold PollingSubject_subscribe. rewrite Hc.
  unfold PollingSubject__subscribe. rewrite Ho. cbn [negb].
  unfold Rx._subscribe. rewrite Hc, He, Hs. cbn [orb negb concat map].
  unfold getValue. cbn [value emit set_dataSubject].
  destruct (value f) as [v|]; cbn [fst pollingTimeout loading emit set_dataSubject].
  - split; [reflexivity|]. split; [reflexivity|].
    apply new_events_app. cbn [log emit set_dataSubject].
    now rewrite app_nil_r.
  - split; [reflexivity|]. split; [reflexivity|].
    apply new_events_same. cbn [log emit set_dataSubject]. now rewrite app_nil_r.
Qed.

(** X16: a subscriber that comes to a stream that has errored is turned
    away with that error and is not told the held value; the start callback
    has nevertheless run, since the errored stream has no observers. *)
Theorem subscribe_to_errored_stream f s now e :
  Rx.closed (dataSubject f) = false ->
  Rx.hasError (dataSubject f) = true ->
  Rx.thrownError (dataSubject f) = Some e ->
  Rx.observers (dataSubject f) = [] ->
  let f' := fst (PollingSubject_subscribe deps f s now) in
  snd (PollingSubject_subscribe deps f s now) = inr true
  /\ Rx.observers (dataSubject f') = []
  /\ exists mid,
       new_events f f' = StartPolling :: mid ++ [SubscriberError s e]
       /\ existsb is_SubscriberNext mid = false.
Proof.
  intros Hc He Ht Ho. unfold PollingSubject_subscribe. rewrite Hc.
  unfold PollingSubject__subscribe.
  destruct (start_if_unobserved f now) as (Hd & Hv & es & Hl & Hq & _ & Hstart).
  set (g := if negb (Rx.observed (dataSubject f))
            then setupPollingTimeout deps (emit f [StartPolling]) now else f) in *.
  destruct Hstart as (mid & ->); [unfold Rx.observed; now rewrite Ho|].
  unfold Rx._subscribe. rewrite Hd, Hc, He, Ht.
  cbn [orb negb concat map log_notification app fst snd dataSubject emit set_dataSubject].
  split; [reflexivity|]. split; [exact Ho|].
  exists mid. split; [|exact Hq].
  apply new_events_app. cbn [log emit set_dataSubject].
  rewrite Hl. cbn [app]. now rewrite <- app_assoc.
Qed.

End SubscribeFacts.

(** Subscribing at the concrete endpoint. *)
Lemma subscribe_replays_held_value_witness :
  let f' := fst (PollingSubject_subscribe Demo.deps Demo.after_first 1%nat 2000) in
  Rx.observers (dataSubject f') = [1%nat]
  /\ exists before,
       new_events Demo.after_first f' = before ++ [SubscriberNext 1%nat "A"]
       /\ existsb is_SubscriberNext before = false.
Proof.
  destruct (subscribe_replays_held_value Demo.deps Demo.after_first 1%nat 2000
              eq_refl eq_refl eq_refl) as (_ & Ho & _ & Hr).
  exact (conj Ho Hr).
Defined.

Lemma subscribe_when_observed_witness :
  let f := stream_run Demo.deps Demo.after_first [Subscribe 1%nat 2000] in
  let f' := fst (PollingSubject_subscribe Demo.deps f 2%nat 3000) in
  pollingTimeout f' = Some 59001
  /\ new_events f f' = [SubscriberNext 2%nat "A"].
Proof.
  destruct (subscribe_when_observed Demo.deps
              (stream_run Demo.deps Demo.after_first [Subscribe 1%nat 2000])
              2%nat 3000 eq_refl eq_refl eq_refl eq_refl) as (Hp & _ & Hn).
  exact (conj Hp Hn).
Defined.

Lemma subscribe_to_errored_stream_witness :
  let e := HttpErrorResponse 500 [] in
  let f := fst (refreshData Demo.deps Demo.after_first 70000 (Failed e) 70001 70002) in
  let f' := fst (PollingSubject_subscribe Demo.deps f 1%nat 80000) in
  snd (PollingSubject_subscribe Demo.deps f 1%nat 80000) = inr true
  /\ Rx.observers (dataSubject f') = []
  /\ exists mid,
       new_events f f' = StartPolling :: mid ++ [SubscriberError 1%nat e]
       /\ existsb is_SubscriberNext mid = false.
Proof.
  exact (subscribe_to_errored_stream Demo.deps
           (fst (refreshData Demo.deps Demo.after_first 70000
                   (Failed (HttpErrorResponse 500 [])) 70001 70002))
           1%nat 80000 (HttpErrorResponse 500 [])
           eq_refl eq_refl eq_refl eq_refl).
Defined.

(** ** Reset, on an engine in use *)

Section ResetInUse.

Context {T RawT : Type}.
Variable deps : Collaborators T RawT.
Implicit Types (f : Fetcher T RawT) (now : Z).

Ltac unfold_interval :=
  unfold getRefreshIntervalInMilliseconds, isValidExpiration, expires_minus,
    isValidRefreshInterval, refresh_minus, truthy_Z in *.

(** A known value without expiry and without refresh interval has no wait. *)
Lemma interval_undefined_without_signal f v now :
  value f = Some v ->
  truthy_opt truthy_number (expires f) = false ->
  truthy_opt truthy_Z (refreshInterval f) = false ->
  getRefreshIntervalInMilliseconds f now = None.
Proof.
  unfold_interval.
  destruct f as [u e x l vv p r w d lo lg]; simpl. intros -> Hx Hr.
  destruct x as [[|x]|], l as [l|], r as [r|]; simpl in *;
    try (apply negb_false_iff, Z.eqb_eq in Hx; subst x);
    try (apply negb_false_iff, Z.eqb_eq in Hr; subst r);
    repeat match goal with
           | |- context [?a >? ?b] => destruct (Z.gtb_spec a b); simpl
           | |- context [?a =? ?b] => destruct (Z.eqb_spec a b); simpl
           end; try reflexivity; simpl in *; lia.
Qed.

Lemma fetch_begin_exempt f v now :
  value f = Some v ->
  truthy_opt truthy_number (expires f) = false ->
  truthy_opt truthy_Z (refreshInterval f) = false ->
  fetchRefreshesWithoutInterval f = false ->
  fetch_begin deps f now = (f, Settled (Resolve (Some v))).
Proof.
  intros Hv Hx Hr Hw. unfold fetch_begin.
  rewrite (interval_undefined_without_signal f v now Hv Hx Hr), Hw, Hv.
  reflexivity.
Qed.

(** An engine that has never fetched and holds nothing is due at once. *)
Lemma interval_zero_when_blank f now :
  value f = None -> expires f = None -> lastFetchTimestamp f = None ->
  getRefreshIntervalInMilliseconds f now = Some 0.
Proof.
  unfold_interval.
  destruct f as [u e x l vv p r w d lo lg]; simpl. now intros -> -> ->.
Qed.

(** X17: [reset()] cannot force a revalidation of a value that has no
    freshness signal: on an engine that holds a value, has no refresh
    interval and does not set [fetchRefreshesWithoutInterval], a [reset()] to
    the same URL makes no request, leaves no timer, and every later
    [fetch()] still answers the old value from the cache. *)
Theorem reset_cannot_revalidate_without_signal f v newUrl now :
  value f = Some v ->
  truthy_opt truthy_Z (refreshInterval f) = false ->
  fetchRefreshesWithoutInterval f = false ->
  newUrl = None \/ newUrl = Some "" \/ newUrl = Some (url f) ->
  let f' := fst (reset_begin deps f newUrl now) in
  snd (reset_begin deps f newUrl now) = Settled (Resolve tt)
  /\ existsb is_HttpGet (new_events f f') = false
  /\ pollingTimeout f' = None
  /\ forall now' o now'', fetch deps f' now' o now'' = (f', Resolve (Some v)).
Proof.
  intros Hv Hr Hw Hurl.
  assert (Hf0 : reset_fields f newUrl
                = set_lastFetchTimestamp (set_expires (set_etag f None) None) None).
  { unfold reset_fields, truthy_string.
    destruct Hurl as [->|[->| ->]]; [reflexivity|reflexivity|].
    cbn [url set_etag set_expires set_lastFetchTimestamp].
    rewrite String.eqb_refl. cbn [negb]. now rewrite andb_false_r. }
  unfold reset_begin. rewrite Hf0.
  set (f0 := set_lastFetchTimestamp (set_expires (set_etag f None) None) None).
  assert (Hfetch : forall g : Fetcher T RawT,
             value g = Some v -> expires g = None ->
             refreshInterval g = refreshInterval f ->
             fetchRefreshesWithoutInterval g = false ->
             forall now' o now'', fetch deps g now' o now'' = (g, Resolve (Some v))).
  { intros g Hgv Hgx Hgr Hgw now' o now''. unfold fetch.
    rewrite (fetch_begin_exempt g v now'); auto; [now rewrite Hgx|now rewrite Hgr]. }
  change (pollingTimeout f0) with (pollingTimeout f).
  change (dataSubject f0) with (dataSubject f).
  destruct (pollingTimeout f) as [d|] eqn:Hp; cbn [defined].
  - unfold clearPollingTimeout. change (pollingTimeout f0) with (pollingTimeout f).
    rewrite Hp.
    set (f1 := set_pollingTimeout (emit f0 [ClearTimeout]) None).
    unfold setupPollingTimeout.
    rewrite (interval_undefined_without_signal f1 v now) by (auto; exact Hr).
    unfold dropPollingTimeout. cbn [pollingTimeout f1 set_pollingTimeout].
    unfold refreshData_begin.
    rewrite (fetch_begin_exempt f1 v now) by (auto; exact Hr).
    cbn [fst snd]. split; [reflexivity|].
    split; [now rewrite (new_events_app f f1 [ClearTimeout])|].
    split; [reflexivity|]. now apply Hfetch.
  - destruct (Rx.observed (dataSubject f)).
    + rewrite (fetch_begin_exempt f0 v now) by (auto; exact Hr).
      cbn [fst snd]. split; [reflexivity|].
      split; [now rewrite new_events_same|]. split; [exact Hp|]. now apply Hfetch.
    + cbn [fst snd]. split; [reflexivity|].
      split; [now rewrite new_events_same|]. split; [exact Hp|]. now apply Hfetch.
Qed.

(** X18: [reset(u)] with a new URL [u] on an engine in use: when a timer is
    armed it is cleared and re-armed for [0] ms, with no request yet; when no
    timer is armed but the stream is observed, a request for [u] is issued at
    once, carrying the auth headers and no [If-None-Match]. *)
Theorem reset_to_other_url f u now :
  u <> "" -> u <> url f ->
  let f' := fst (reset_begin deps f (Some u) now) in
  (forall d, pollingTimeout f = Some d ->
     snd (reset_begin deps f (Some u) now) = Settled (Resolve tt)
     /\ pollingTimeout f' = Some 0
     /\ new_events f f' = [ClearTimeout; SetTimeout 0])
  /\ (pollingTimeout f = None -> Rx.observed (dataSubject f) = true ->
      snd (reset_begin deps f (Some u) now) = AwaitingResponse
      /\ loading f' = true
      /\ new_events f f' = [LoadingNext true; HttpGet u (getAuthHeaders deps)]).
Proof.
  intros Hu Hne.
  assert (Hf0 : reset_fields f (Some u)
                = set_url (set_value
                    (set_lastFetchTimestamp (set_expires (set_etag f None) None) None)
                    None) u).
  { unfold reset_fields, truthy_string.
    cbn [url set_etag set_expires set_lastFetchTimestamp].
    apply String.eqb_neq in Hu, Hne. now rewrite Hu, Hne. }
  unfold reset_begin. rewrite Hf0.
  set (f0 := set_url _ u).
  change (pollingTimeout f0) with (pollingTimeout f).
  change (dataSubject f0) with (dataSubject f).
  split.
  - intros d Hp. rewrite Hp. cbn [defined fst snd].
    unfold clearPollingTimeout. change (pollingTimeout f0) with (pollingTimeout f).
    rewrite Hp.
    set (f1 := set_pollingTimeout (emit f0 [ClearTimeout]) None).
    unfold setupPollingTimeout.
    rewrite (interval_zero_when_blank f1 now) by reflexivity.
    split; [reflexivity|]. split; [reflexivity|].
    apply new_events_app. cbn [log f1 f0 emit set_pollingTimeout set_url set_value
      set_lastFetchTimestamp set_expires set_etag].
    now rewrite <- app_assoc.
  - intros Hp Ho. rewrite Hp, Ho. cbn [defined].
    unfold fetch_begin.
    rewrite (interval_zero_when_blank f0 now) by reflexivity.
    cbn [defined negb andb default from_option id Z.gtb Z.compare].
    unfold truthy_string. change (url f0) with u.
    apply String.eqb_neq in Hu. rewrite Hu. cbn [negb fst snd].
    split; [reflexivity|]. split; [reflexivity|].
    apply new_events_app. cbn [log f0 emit loadingSubject_next set_url set_value
      set_lastFetchTimestamp set_expires set_etag url].
    now rewrite <- app_assoc.
Qed.

End ResetInUse.

(** Reset at the concrete endpoint. *)
Lemma reset_cannot_revalidate_without_signal_witness :
  let f := fst (fetch Demo.deps Demo.fresh 1000
                  (Demo.response 200 [("ETag", "v1")] (Some "A")) 1001) in
  let f' := fst (reset_begin Demo.deps f None 5000) in
  existsb is_HttpGet (new_events f f') = false
  /\ forall now' o now'', fetch Demo.deps f' now' o now'' = (f', Resolve (Some "A")).
Proof.
  destruct (reset_cannot_revalidate_without_signal Demo.deps
              (fst (fetch Demo.deps Demo.fresh 1000
                      (Demo.response 200 [("ETag", "v1")] (Some "A")) 1001))
              "A" None 5000 eq_refl eq_refl eq_refl (or_introl eq_refl))
    as (_ & Hg & _ & Hf).
  exact (conj Hg Hf).
Defined.

Lemma reset_to_other_url_witness :
  let f := stream_run Demo.deps Demo.after_first [Subscribe 1%nat 2000] in
  let f' := fst (reset_begin Demo.deps f (Some "https://api.example.com/other") 3000) in
  pollingTimeout f = Some 59001
  /\ pollingTimeout f' = Some 0
  /\ new_events f f' = [ClearTimeout; SetTimeout 0].
Proof.
  destruct (reset_to_other_url Demo.deps
              (stream_run Demo.deps Demo.after_first [Subscribe 1%nat 2000])
              "https://api.example.com/other" 3000) as (Htimer & _);
    [discriminate|discriminate|].
  destruct (Htimer 59001 eq_refl) as (_ & Hp & Hn).
  split; [reflexivity|]. exact (conj Hp Hn).
Defined.

(** ** The identifier index *)

Section IndexFacts.

Context {Item : Type}.
Variable idKey : Item -> Id.
Implicit Types (items : list Item) (id : Id) (k : PropertyKey).

Lemma createById_snoc items x :
  createById idKey (items ++ [x])
  = OrdinarySet (createById idKey items) (ToPropertyKey (idKey x)) x.
Proof. unfold createById. now rewrite foldl_app. Qed.

Lemma createById_size items :
  (size (own (createById idKey items)) <= length items)%nat.
Proof.
  induction items as [|x items IH] using rev_ind; [reflexivity|].
  rewrite createById_snoc, length_app. cbn [length]. unfold OrdinarySet.
  destruct (decide (ToPropertyKey (idKey x) = proto_key)); cbn [own]; [lia|].
  destruct (own (createById idKey items) !! ToPropertyKey (idKey x)) eqn:Hl.
  - rewrite map_size_insert_Some by eauto. lia.
  - rewrite map_size_insert_None by assumption. lia.
Qed.

Lemma Object_prototype_get_no_entity k (x : Item) :
  Object_prototype_get k <> Some (Entity x).
Proof.
  destruct k as [s|n]; cbn [Object_prototype_get]; [|discriminate].
  destruct (String.eqb s "__proto__"); [discriminate|].
  destruct (existsb _ _); discriminate.
Qed.

(** X19: reading the index of an array in which no identifier is
    ['__proto__']: an entity that a read answers is an item of the array
    whose identifier names the property read; a read answers nothing exactly
    when [Object.prototype] holds nothing under the key and no item of the
    array has it; and the index never has more own properties than the array
    has items. *)
Theorem createById_entries items :
  no_proto_key idKey items ->
  (forall k x, OrdinaryGet (createById idKey items) k = Some (Entity x) ->
     ToPropertyKey (idKey x) = k /\ x ∈ items)
  /\ (forall k, OrdinaryGet (createById idKey items) k = None
                <-> Object_prototype_get (Item := Item) k = None
                    /\ forall x, x ∈ items -> ToPropertyKey (idKey x) <> k)
  /\ (size (own (createById idKey items)) <= length items)%nat.
Proof.
  intros Hnp. split; [|split; [|apply createById_size]].
  - intros k x. rewrite (createById_OrdinaryGet idKey items k Hnp).
    destruct (last_with_key idKey k items) as [y|] eqn:Hl.
    + intros [= ->]. now apply (last_with_key_elem idKey k items).
    + intros Hget. now apply Object_prototype_get_no_entity in Hget.
  - intros k. rewrite (createById_OrdinaryGet idKey items k Hnp).
    rewrite <- Forall_forall, <- last_with_key_None.
    destruct (last_with_key idKey k items) as [y|]; split.
    + discriminate.
    + intros [_ Hy]. discriminate Hy.
    + intros Hget. now split.
    + now intros [Hget _].
Qed.

(** With pairwise distinct keys an item is the last one with its key. *)
Lemma last_with_key_NoDup items x :
  NoDup (map (fun y => ToPropertyKey (idKey y)) items) ->
  x ∈ items ->
  last_with_key idKey (ToPropertyKey (idKey x)) items = Some x.
Proof.
  induction items as [|y items IH]; intros Hnd Hx; [inversion Hx|].
  cbn [map] in Hnd. apply NoDup_cons in Hnd as [Hy Hnd].
  rewrite last_with_key_cons.
  apply elem_of_cons in Hx as [->|Hin]; [|now rewrite (IH Hnd Hin)].
  assert (Hnone : last_with_key idKey (ToPropertyKey (idKey y)) items = None).
  { apply last_with_key_None, Forall_forall. intros z Hz Heq. apply Hy.
    rewrite <- Heq.
    apply list_elem_of_In,
      (in_map (fun y => ToPropertyKey (idKey y))), list_elem_of_In, Hz. }
  rewrite Hnone. now destruct (decide _).
Qed.

Lemma createById_distinct_lookup items :
  no_proto_key idKey items ->
  NoDup (map (fun y => ToPropertyKey (idKey y)) items) ->
  forall x, x ∈ items ->
    OrdinaryGet (createById idKey items) (ToPropertyKey (idKey x)) = Some (Entity x).
Proof.
  intros Hnp Hnd x Hx. rewrite (createById_OrdinaryGet idKey items _ Hnp).
  now rewrite (last_with_key_NoDup items x Hnd Hx).
Qed.

(** X20: when the identifiers of the array name pairwise distinct
    properties, none of them ['__proto__'], the index gives every item back
    under its identifier and has exactly one own property per item. *)
Theorem createById_round_trip items :
  no_proto_key idKey items ->
  NoDup (map (fun y => ToPropertyKey (idKey y)) items) ->
  (forall x, x ∈ items ->
     OrdinaryGet (createById idKey items) (ToPropertyKey (idKey x))
     = Some (Entity x))
  /\ size (own (createById idKey items)) = length items.
Proof.
  intros Hnp Hnd. split; [now apply createById_distinct_lookup|].
  induction items as [|y items IH] using rev_ind; [reflexivity|].
  apply Forall_app in Hnp as [Hnp Hy]. apply Forall_cons in Hy as [Hy _].
  rewrite map_app in Hnd. cbn [map] in Hnd.
  apply NoDup_app in Hnd as (Hnd & Hfresh & _).
  rewrite createById_snoc, length_app. cbn [length]. unfold OrdinarySet.
  destruct (decide (ToPropertyKey (idKey y) = proto_key)) as [Hp|_];
    [contradiction|].
  cbn [own]. rewrite map_size_insert_None.
  - rewrite (IH Hnp Hnd). lia.
  - rewrite createById_own.
    destruct (decide (ToPropertyKey (idKey y) = proto_key)); [reflexivity|].
    apply last_with_key_None, Forall_forall. intros z Hz Heq.
    apply (Hfresh (ToPropertyKey (idKey y))); [|now left].
    rewrite <- Heq.
    apply list_elem_of_In,
      (in_map (fun y => ToPropertyKey (idKey y))), list_elem_of_In, Hz.
Qed.

(** X21: indexing two arrays one after the other.  Among the own
    properties a key is answered from the later array when it occurs there
    and from the earlier one otherwise, and so is the prototype; a read
    follows the same rule for every key that [Object.prototype] does not
    answer, when no identifier is ['__proto__']. *)
Theorem createById_app items1 items2 :
  (forall k,
     own (createById idKey (items1 ++ items2)) !! k
     = match own (createById idKey items2) !! k with
       | Some x => Some x
       | None => own (createById idKey items1) !! k
       end)
  /\ prototype (createById idKey (items1 ++ items2))
     = match prototype (createById idKey items2) with
       | Some x => Some x
       | None => prototype (createById idKey items1)
       end
  /\ (no_proto_key idKey items1 -> no_proto_key idKey items2 ->
      forall k, Object_prototype_get (Item := Item) k = None ->
        OrdinaryGet (createById idKey (items1 ++ items2)) k
        = match OrdinaryGet (createById idKey items2) k with
          | Some v => Some v
          | None => OrdinaryGet (createById idKey items1) k
          end).
Proof.
  split; [|split].
  - intros k. rewrite !createById_own, last_with_key_app.
    now destruct (decide (k = proto_key)).
  - now rewrite !createById_prototype, last_with_key_app.
  - intros Hnp1 Hnp2 k Hk.
    assert (Hnp : no_proto_key idKey (items1 ++ items2))
      by (apply Forall_app; now split).
    rewrite !createById_OrdinaryGet by assumption.
    rewrite last_with_key_app, Hk.
    now destruct (last_with_key idKey k items2).
Qed.

(** X22: [dataLoaderBatchFromIds] answers position by position: as many
    slots as identifiers asked for; asked for the identifiers of the array
    itself, when these name pairwise distinct properties, none of them
    ['__proto__'], it returns the items in their order; and an identifier
    whose key neither an item nor [Object.prototype] has yields an empty
    slot rather than a failure. *)
Theorem dataLoaderBatchFromIds_round_trip ids items :
  length (dataLoaderBatchFromIds idKey ids items) = length ids
  /\ (no_proto_key idKey items ->
      NoDup (map (fun y => ToPropertyKey (idKey y)) items) ->
      dataLoaderBatchFromIds idKey (map idKey items) items
      = map (fun x => Some (Entity x)) items)
  /\ (no_proto_key idKey items ->
      forall i id, ids !! i = Some id ->
        Object_prototype_get (Item := Item) (ToPropertyKey id) = None ->
        (forall x, x ∈ items -> ToPropertyKey (idKey x) <> ToPropertyKey id) ->
        dataLoaderBatchFromIds idKey ids items !! i = Some None).
Proof.
  unfold dataLoaderBatchFromIds. split; [apply length_map|]. split.
  - intros Hnp Hnd. rewrite map_map. apply map_ext_in. intros x Hx.
    apply createById_distinct_lookup; [exact Hnp|exact Hnd|].
    apply list_elem_of_In, Hx.
  - intros Hnp i id Hi Hk Hnone.
    change (map ?g ids) with (g <$> ids). rewrite list_lookup_fmap, Hi.
    cbn [fmap option_fmap option_map]. f_equal.
    rewrite (createById_OrdinaryGet idKey items _ Hnp), Hk.
    apply Forall_forall, last_with_key_None in Hnone. now rewrite Hnone.
Qed.

End IndexFacts.

Lemma createById_round_trip_witness :
  OrdinaryGet (createById fst [(IdString "x", "X"); (IdNumber 7, "Y")])
              (KString "7")
  = Some (Entity (IdNumber 7, "Y"))
  /\ size (own (createById fst [(IdString "x", "X"); (IdNumber 7, "Y")])) = 2%nat.
Proof.
  assert (Hnp : no_proto_key fst [(IdString "x", "X"); (IdNumber 7, "Y")])
    by (repeat constructor; discriminate).
  assert (Hnd : NoDup (map (fun y : Id * string => ToPropertyKey (fst y))
                           [(IdString "x", "X"); (IdNumber 7, "Y")])).
  { cbn [map fst]. apply NoDup_cons. split.
    - intros Hin. apply list_elem_of_In in Hin. destruct Hin as [Heq|[]].
      discriminate Heq.
    - apply NoDup_cons. split; [intros Hin; inversion Hin|apply NoDup_nil_2]. }
  destruct (createById_round_trip fst [(IdString "x", "X"); (IdNumber 7, "Y")]
              Hnp Hnd) as (Hget & Hs).
  split; [|exact Hs].
  apply (Hget (IdNumber 7, "Y")). right. left.
Defined.

Lemma createById_entries_witness :
  OrdinaryGet (createById fst [(IdString "x", "first"); (IdString "x", "second")])
              (KString "x")
  = Some (Entity (IdString "x", "second"))
  /\ OrdinaryGet (createById fst [(IdString "x", "first"); (IdString "x", "second")])
                 (KString "z")
     = None.
Proof.
  assert (Hnp : no_proto_key fst [(IdString "x", "first"); (IdString "x", "second")])
    by (repeat constructor; discriminate).
  destruct (createById_entries fst [(IdString "x", "first"); (IdString "x", "second")]
              Hnp) as (_ & Hnone & _).
  split; [reflexivity|].
  apply Hnone. split; [reflexivity|]. intros x Hx Heq.
  apply list_elem_of_In in Hx. destruct Hx as [<-|[<-|[]]]; discriminate Heq.
Defined.

Lemma dataLoaderBatchFromIds_round_trip_witness :
  dataLoaderBatchFromIds fst [IdString "y"; IdString "x"]
    [(IdString "x", "X"); (IdString "y", "Y")]
  = [Some (Entity (IdString "y", "Y")); Some (Entity (IdString "x", "X"))]
  /\ dataLoaderBatchFromIds fst [IdString "x"; IdString "z"]
       [(IdString "x", "X"); (IdString "y", "Y")] !! 1%nat
     = Some None.
Proof.
  assert (Hnp : no_proto_key fst [(IdString "x", "X"); (IdString "y", "Y")])
    by (repeat constructor; discriminate).
  destruct (dataLoaderBatchFromIds_round_trip fst [IdString "x"; IdString "z"]
              [(IdString "x", "X"); (IdString "y", "Y")])
    as (_ & _ & Hhole).
  split; [reflexivity|].
  apply (Hhole Hnp 1%nat (IdString "z")); [reflexivity|reflexivity|].
  intros x Hx Heq.
  apply list_elem_of_In in Hx. destruct Hx as [<-|[<-|[]]]; discriminate Heq.
Defined.

Lemma createById_app_witness :
  OrdinaryGet (createById fst ([(IdString "x", "X")] ++ [(IdString "y", "Y")]))
              (KString "x")
  = Some (Entity (IdString "x", "X")).
Proof.
  destruct (createById_app fst [(IdString "x", "X")] [(IdString "y", "Y")])
    as (_ & _ & Hget).
  etransitivity;
    [apply Hget; [repeat constructor; discriminate..|reflexivity]|].
  reflexivity.
Defined.

(** A read of a name that [Object.prototype] answers does not follow the
    append rule: an item under ['constructor'] in the first array is
    answered by the whole index, while the index of the second array alone
    answers the built-in. *)
Example createById_app_inherited_name :
  let items1 := [(IdString "constructor", "C")] in
  let items2 := [(IdString "y", "Y")] in
  OrdinaryGet (createById fst (items1 ++ items2)) (KString "constructor")
  = Some (Entity (IdString "constructor", "C"))
  /\ OrdinaryGet (createById fst items2) (KString "constructor")
     = Some (ObjectPrototypeMember "constructor").
Proof. vm_compute. split; reflexivity. Qed.

(** ** The service: engine and overlay together *)

Section ServiceFacts.

Context {Item : Type}.
Variable idKey : Item -> Id.
Variable authHeaders : HttpHeaders.
Variable Date_getTime : string -> option Z.

Local Abbreviation RawT := (RawData (Item := Item)).
Local Abbreviation DataT := (Data (Item := Item)).
Local Abbreviation sdeps := (service_collaborators idKey authHeaders Date_getTime).

Implicit Types (f : Fetcher DataT RawT) (raw : RawT) (d : DataT).

(** X23: the service's [isEqual] is an equivalence on values that looks at
    the [etag] field only: two converted payloads are equal exactly when
    their [etag]s are, whatever their items. *)
Theorem service_isEqual_by_etag :
  (forall d, service_isEqual d d = true)
  /\ (forall d1 d2, service_isEqual d1 d2 = service_isEqual d2 d1)
  /\ (forall d1 d2 d3, service_isEqual d1 d2 = true ->
        service_isEqual d2 d3 = true -> service_isEqual d1 d3 = true)
  /\ (forall raw1 raw2,
        service_isEqual (service_converter idKey raw1) (service_converter idKey raw2)
        = true
        <-> raw_etag raw1 = raw_etag raw2).
Proof.
  unfold service_isEqual. split; [|split; [|split]].
  - intros d. apply String.eqb_refl.
  - intros d1 d2. apply String.eqb_sym.
  - intros d1 d2 d3 H12 H23. apply String.eqb_eq in H12, H23.
    apply String.eqb_eq. congruence.
  - intros raw1 raw2. cbn [service_converter data_etag]. apply String.eqb_eq.
Qed.

Lemma data_emissions_app {T RawT' : Type} (a b : list (Event T RawT')) :
  data_emissions (a ++ b) = data_emissions a ++ data_emissions b.
Proof.
  induction a as [|e a IH]; [reflexivity|].
  destruct e; cbn [app data_emissions]; rewrite IH; reflexivity.
Qed.

(** X24: a [200] that brings other items under the [etag] already held is
    discarded by the engine the service builds: the held value stays,
    nothing is sent down the stream, and the overlay goes on answering from
    the old items. *)
Theorem same_etag_payload_is_dropped f now1 now2 r raw d :
  status r = 200 -> body r = Some raw ->
  value f = Some d -> data_etag d = raw_etag raw ->
  let f' := fst (fetch sdeps f now1 (Responded r) now2) in
  value f' = Some d
  /\ data_emissions (log f') = data_emissions (log f)
  /\ forall id,
       overlay_load (upstream_of (log f')) id
       = overlay_load (upstream_of (log f)) id.
Proof.
  intros H2 Hr Hv He.
  assert (Heq : isEqual sdeps d (service_converter idKey raw) = true).
  { cbn [isEqual service_collaborators]. unfold service_isEqual.
    cbn [service_converter data_etag]. apply String.eqb_eq. exact He. }
  assert (Hlog : let f' := fst (fetch sdeps f now1 (Responded r) now2) in
                 value f' = Some d
                 /\ data_emissions (log f') = data_emissions (log f)).
  { unfold fetch.
    destruct (fetch_begin_cases sdeps f now1) as [E|[E|E]]; rewrite E; cbn [fst];
      [now split | now split |].
    rewrite (fetch_resume_200_equal sdeps (requesting sdeps f) r now2 raw d
               (service_converter idKey raw)); try assumption; try reflexivity.
    cbn [fst]. split; [exact Hv|].
    cbn [log emit revalidated]. rewrite log_requesting.
    rewrite !data_emissions_app. cbn [data_emissions]. now rewrite !app_nil_r. }
  destruct Hlog as (Hval & Hem). split; [exact Hval|]. split; [exact Hem|].
  intros id. unfold upstream_of. now rewrite Hem.
Qed.

Lemma last_dataLoader_emissions_snoc (vs : list DataT) d :
  last (dataLoader_emissions (map UpNext (vs ++ [d])))
  = Some (createLocalDataLoader (data_byId d)).
Proof.
  induction vs as [|v vs IH]; [reflexivity|].
  cbn [app map dataLoader_emissions]. rewrite last_cons, IH. reflexivity.
Qed.

(** X25: from the transport to the lookup: when the engine the service
    builds takes in a [200] whose payload is a change, on a live stream, the
    payload's conversion is the one value sent down the stream; and, when no
    identifier of the payload is ['__proto__'], the overlay then answers
    [load(id)] with the last item of that payload whose identifier names
    the same property as [id], and with what [Object.prototype] holds under
    that key when the payload has no such item. *)
Theorem payload_reaches_overlay f now1 now2 r raw :
  snd (fetch_begin sdeps f now1) = AwaitingResponse ->
  status r = 200 -> body r = Some raw ->
  is_change sdeps f (service_converter idKey raw) ->
  Rx.closed (dataSubject f) = false ->
  Rx.isStopped (dataSubject f) = false ->
  let f' := fst (fetch sdeps f now1 (Responded r) now2) in
  data_emissions (new_events f f') = [service_converter idKey raw]
  /\ (no_proto_key idKey (raw_items raw) ->
      forall id,
        overlay_load (upstream_of (log f')) id
        = match last_with_key idKey (ToPropertyKey id) (raw_items raw) with
          | Some x => Some (Entity x)
          | None => Object_prototype_get (ToPropertyKey id)
          end).
Proof.
  intros Ha H2 Hr Hch Hc Hs.
  assert (Hlog : log (fst (fetch sdeps f now1 (Responded r) now2))
                 = log f ++ [LoadingNext true; HttpGet (url f) (getHeaders sdeps f);
                             LoadingNext false; ConverterCall raw;
                             DataNext (service_converter idKey raw)]).
  { unfold fetch.
    destruct (fetch_begin_cases sdeps f now1) as [E|[E|E]]; rewrite E in Ha |- *;
      [discriminate Ha | discriminate Ha | cbn [fst snd]].
    rewrite (fetch_resume_200_changed sdeps (requesting sdeps f) r now2 raw
               (service_converter idKey raw)); try assumption; try reflexivity.
    unfold dataSubject_next, Rx.next.
    cbn [dataSubject set_value emit revalidated requesting loadingSubject_next].
    rewrite Hc, Hs. cbn [fst log emit set_dataSubject set_value revalidated].
    rewrite log_requesting. now rewrite <- !app_assoc. }
  cbn zeta. split.
  - now rewrite (new_events_app f _ _ Hlog).
  - intros Hnp id. unfold overlay_load, current_dataLoader, upstream_of.
    rewrite Hlog, data_emissions_app. cbn [data_emissions].
    rewrite last_dataLoader_emissions_snoc.
    unfold load, createLocalDataLoader. cbn [byId service_converter data_byId].
    now apply createById_OrdinaryGet.
Qed.

(** X26: when the upstream fails, the pipe sends one more lookup object, an
    empty one, and nothing after it, whatever the upstream sends next. *)
Theorem dataLoader_emissions_after_error (vs : list DataT) e rest :
  dataLoader_emissions (map UpNext vs ++ UpError e :: rest)
  = map (fun d => createLocalDataLoader (data_byId d)) vs
    ++ [createLocalDataLoader empty_object].
Proof.
  induction vs as [|v vs IH]; [reflexivity|].
  cbn [map app dataLoader_emissions]. now rewrite IH.
Qed.

End ServiceFacts.

(** The service at the concrete collection endpoint. *)
Lemma service_isEqual_by_etag_witness :
  service_isEqual (service_converter fst DemoService.first_payload)
                  (service_converter fst DemoService.same_etag_payload)
  = true.
Proof.
  destruct (service_isEqual_by_etag (Item := DemoService.Item) fst)
    as (_ & _ & _ & Hetag).
  apply Hetag. reflexivity.
Defined.

Lemma same_etag_payload_is_dropped_witness :
  let r := mkResponse 200 [("ETag", "v2")] (Some DemoService.same_etag_payload) in
  let f' := fst (fetch DemoService.deps DemoService.after_first 70000 (Responded r) 70001) in
  value f' = value DemoService.after_first
  /\ overlay_load (upstream_of (log f')) (IdString "x")
     = Some (Entity (IdString "x", "X")).
Proof.
  destruct (same_etag_payload_is_dropped fst [] Demo.Date_getTime
              DemoService.after_first 70000 70001
              (mkResponse 200 [("ETag", "v2")] (Some DemoService.same_etag_payload))
              DemoService.same_etag_payload
              (service_converter fst DemoService.first_payload)
              eq_refl eq_refl eq_refl eq_refl) as (Hv & _ & Hload).
  split; [exact Hv|].
  etransitivity; [exact (Hload (IdString "x"))|]. vm_compute. reflexivity.
Defined.

Lemma payload_reaches_overlay_witness :
  let r := mkResponse 200 [("ETag", "v1")] (Some DemoService.first_payload) in
  let f' := fst (fetch DemoService.deps DemoService.fresh 1000 (Responded r) 1001) in
  overlay_load (upstream_of (log f')) (IdString "y")
  = Some (Entity (IdString "y", "Y")).
Proof.
  destruct (payload_reaches_overlay fst [] Demo.Date_getTime
              DemoService.fresh 1000 1001
              (mkResponse 200 [("ETag", "v1")] (Some DemoService.first_payload))
              DemoService.first_payload
              eq_refl eq_refl eq_refl (or_introl eq_refl) eq_refl eq_refl)
    as (_ & Hload).
  assert (Hnp : no_proto_key fst (raw_items DemoService.first_payload))
    by (repeat constructor; discriminate).
  etransitivity; [exact (Hload Hnp (IdString "y"))|]. vm_compute. reflexivity.
Defined.

(** ** An invariant of fetching *)

Section EmissionInvariant.

Context {T RawT : Type}.
Variable deps : Collaborators T RawT.
Implicit Types (f : Fetcher T RawT) (now : Z).

Lemma data_emissions_requesting f :
  data_emissions (log (requesting deps f)) = data_emissions (log f).
Proof.
  rewrite log_requesting, data_emissions_app. cbn [data_emissions].
  apply app_nil_r.
Qed.

(** On a live stream one [fetch()] either keeps the value and sends
    nothing, or stores a value that is a change and sends exactly it. *)
Lemma fetch_emissions f now1 o now2 :
  Rx.closed (dataSubject f) = false ->
  Rx.isStopped (dataSubject f) = false ->
  let f' := fst (fetch deps f now1 o now2) in
  (value f' = value f
   /\ data_emissions (log f') = data_emissions (log f))
  \/ (exists v', value f' = Some v'
        /\ data_emissions (log f') = data_emissions (log f) ++ [v']
        /\ is_change deps f v').
Proof.
  intros Hc Hs. unfold fetch.
  destruct (fetch_begin_cases deps f now1) as [E|[E|E]]; rewrite E; cbn [fst];
    [now left | now left |].
  pose proof (data_emissions_requesting f) as Hq.
  unfold fetch_resume. destruct o as [r|e]; [|left; now split].
  destruct (negb _ && negb _);
    [left; split; [reflexivity|];
     cbn [fst log loadingSubject_next]; rewrite data_emissions_app, Hq;
     cbn [data_emissions]; apply app_nil_r|].
  assert (Hrev : data_emissions
                   (log (set_expires
                      (set_lastFetchTimestamp
                         (set_etag (loadingSubject_next (requesting deps f) false)
                            (headers_get (headers r) "ETag")) (Some now2))
                      (createExpires deps (headers_get (headers r) "Expires"))))
                 = data_emissions (log f)).
  { cbn [log set_expires set_lastFetchTimestamp set_etag loadingSubject_next].
    rewrite data_emissions_app, Hq. cbn [data_emissions]. apply app_nil_r. }
  destruct (status r =? _); [left; now split|].
  destruct (negb (truthy_opt _ _)); [left; now split|].
  destruct (body r) as [raw|]; [|left; now split].
  assert (Hconv : forall g : Fetcher T RawT,
             data_emissions (log (emit g [ConverterCall raw]))
             = data_emissions (log g)).
  { intros g. cbn [log emit]. rewrite data_emissions_app. cbn [data_emissions].
    apply app_nil_r. }
  destruct (converter deps raw) as [e|v'];
    [left; split; [reflexivity|]; cbn [fst]; now rewrite Hconv|].
  cbn [value emit set_expires set_lastFetchTimestamp set_etag loadingSubject_next].
  change (value (requesting deps f)) with (value f).
  destruct (value f) as [v|] eqn:Hv.
  - destruct (isEqual deps v v') eqn:He; cbn [negb].
    + left. cbn [fst]. split; [exact Hv|]. now rewrite Hconv.
    + right. exists v'. unfold dataSubject_next, Rx.next.
      cbn [dataSubject set_value emit set_expires set_lastFetchTimestamp set_etag
           loadingSubject_next requesting].
      rewrite Hc, Hs. cbn [fst value set_dataSubject emit set_value].
      split; [reflexivity|]. split; [|right; now exists v].
      cbn [log emit set_dataSubject set_value]. rewrite data_emissions_app.
      cbn [data_emissions]. f_equal.
      etransitivity; [apply (Hconv _)|exact Hrev].
  - right. exists v'. unfold dataSubject_next, Rx.next.
    cbn [dataSubject set_value emit set_expires set_lastFetchTimestamp set_etag
         loadingSubject_next requesting].
    rewrite Hc, Hs. cbn [fst value set_dataSubject emit set_value].
    split; [reflexivity|]. split; [|now left].
    cbn [log emit set_dataSubject set_value]. rewrite data_emissions_app.
    cbn [data_emissions]. f_equal.
    etransitivity; [apply (Hconv _)|exact Hrev].
Qed.

Lemma no_adjacent_snoc {A : Type} (R : A -> A -> bool) (l : list A) (b : A) :
  no_adjacent R l = true ->
  (forall a, last l = Some a -> R a b = false) ->
  no_adjacent R (l ++ [b]) = true.
Proof.
  induction l as [|a l IH]; [reflexivity|].
  destruct l as [|c l].
  - intros _ Hlast. cbn [app no_adjacent]. now rewrite (Hlast a eq_refl).
  - intros Hn Hlast. cbn [no_adjacent] in Hn. apply andb_prop in Hn as [Hac Hn].
    change ((a :: c :: l) ++ [b]) with (a :: (c :: l) ++ [b]).
    cbn [no_adjacent app]. rewrite Hac. cbn [andb].
    apply IH; [exact Hn|]. intros a' Ha'. apply Hlast.
    now rewrite last_cons_cons.
Qed.

(** X27: however many times a new engine is asked to [fetch()], and
    whatever the transport answers, the value it holds is the last value it
    sent down the stream (none held when none was sent), and it never sends
    a value that [isEqual] equates with the one sent just before. *)
Theorem emissions_track_value u ri w (calls : list (FetchCall RawT)) :
  let f := fetch_all deps (new_Fetcher u ri w) calls in
  value f = last (data_emissions (log f))
  /\ no_adjacent (isEqual deps) (data_emissions (log f)) = true.
Proof.
  cbn zeta.
  assert (Hinv : dataSubject (fetch_all deps (new_Fetcher u ri w) calls)
                 = Rx.new_Subject
                 /\ value (fetch_all deps (new_Fetcher u ri w) calls)
                    = last (data_emissions
                              (log (fetch_all deps (new_Fetcher u ri w) calls)))
                 /\ no_adjacent (isEqual deps)
                      (data_emissions
                         (log (fetch_all deps (new_Fetcher u ri w) calls)))
                    = true);
    [|tauto].
  induction calls as [|c calls IH] using rev_ind; [now repeat split|].
  unfold fetch_all in *. rewrite foldl_app. cbn [foldl].
  set (f := foldl _ (new_Fetcher u ri w) calls) in *.
  destruct IH as (Hd & Hv & Hn).
  split; [now rewrite fetch_keeps_dataSubject|].
  destruct (fetch_emissions f (call_now1 c) (call_outcome c) (call_now2 c))
    as [(Hv' & He')|(v' & Hv' & He' & Hch)];
    [now rewrite Hd | now rewrite Hd | |].
  - rewrite Hv', He'. now split.
  - rewrite Hv', He'. split; [now rewrite last_snoc|].
    apply no_adjacent_snoc; [exact Hn|].
    intros a Ha. rewrite <- Hv in Ha.
    destruct Hch as [Hnone|(v & Hsome & Hneq)]; congruence.
Qed.

End EmissionInvariant.

(** ** What stays as it is *)

Section FrameFacts.

Context {T RawT : Type}.
Variable deps : Collaborators T RawT.
Implicit Types (f : Fetcher T RawT) (now : Z) (s : nat).

(** X28: [PollingSubject.unsubscribe()] ends the stream for good: the stop
    callback runs first, no timer is left, no observer is left, and every
    later subscription is refused with [ObjectUnsubscribedError] before
    anything happens to the engine. *)
Theorem unsubscribe_closes_stream f :
  let f1 := stream_step deps f UnsubscribeSubject in
  Rx.closed (dataSubject f1) = true
  /\ Rx.observers (dataSubject f1) = []
  /\ pollingTimeout f1 = None
  /\ (exists rest, new_events f f1 = EndPolling :: rest)
  /\ forall s now,
       PollingSubject_subscribe deps f1 s now = (f1, inl ObjectUnsubscribedError).
Proof.
  cbn [stream_step]. unfold PollingSubject_unsubscribe.
  cbn [dataSubject set_dataSubject]. unfold Rx.observed.
  cbn [Rx.observers Rx.unsubscribe negb]. unfold clearPollingTimeout.
  cbn [pollingTimeout emit set_dataSubject].
  destruct (pollingTimeout f) eqn:Hp;
    cbn [dataSubject pollingTimeout set_pollingTimeout emit set_dataSubject
         Rx.closed Rx.observers Rx.unsubscribe].
  - split; [reflexivity|]. split; [reflexivity|]. split; [reflexivity|].
    split; [exists [ClearTimeout]; apply new_events_app; cbn [log emit set_pollingTimeout set_dataSubject];
            now rewrite <- app_assoc|].
    intros s now. reflexivity.
  - split; [reflexivity|]. split; [reflexivity|]. split; [exact Hp|].
    split; [exists []; now apply new_events_app|].
    intros s now. reflexivity.
Qed.

(** X29: what the start callback does: when there is a wait, it arms a
    timer for exactly that wait and makes no request, not even when the wait
    is [0]; when the wait is undefined, it arms nothing and tries one
    refresh, which reaches the transport only if
    [fetchRefreshesWithoutInterval] is set. *)
Theorem setupPollingTimeout_outcomes f now :
  let f' := setupPollingTimeout deps f now in
  (forall i, getRefreshIntervalInMilliseconds f now = Some i ->
     pollingTimeout f' = Some i
     /\ new_events f f' = [SetTimeout i])
  /\ (getRefreshIntervalInMilliseconds f now = None ->
      pollingTimeout f' = None
      /\ existsb is_SetTimeout (new_events f f') = false
      /\ existsb is_HttpGet (new_events f f')
         = fetchRefreshesWithoutInterval f && truthy_string (url f)).
Proof.
  unfold setupPollingTimeout. split.
  - intros i ->. split; [reflexivity|]. now apply new_events_app.
  - intros Hi. rewrite Hi.
    assert (Hdrop : getRefreshIntervalInMilliseconds (dropPollingTimeout f) now = None).
    { unfold dropPollingTimeout. destruct (pollingTimeout f); exact Hi. }
    assert (Hlog : exists es, log (dropPollingTimeout f) = log f ++ es
                              /\ existsb is_SetTimeout es = false
                              /\ existsb is_HttpGet es = false
                              /\ pollingTimeout (dropPollingTimeout f) = None).
    { unfold dropPollingTimeout. destruct (pollingTimeout f) eqn:Hp.
      - exists [ClearTimeout]. now repeat split.
      - exists []. rewrite app_nil_r. now repeat split. }
    destruct Hlog as (es & Hl & Hst & Hhg & Hp).
    assert (Hsame : fetchRefreshesWithoutInterval (dropPollingTimeout f)
                    = fetchRefreshesWithoutInterval f
                    /\ url (dropPollingTimeout f) = url f).
    { unfold dropPollingTimeout. destruct (pollingTimeout f); now split. }
    destruct Hsame as (Hw & Hu).
    set (g := dropPollingTimeout f) in *.
    unfold refreshData_begin, fetch_begin. rewrite Hdrop, Hw, Hu.
    cbn [defined negb andb default from_option Z.gtb Z.compare].
    destruct (fetchRefreshesWithoutInterval f); cbn [negb andb fst].
    + destruct (truthy_string (url f)); cbn [negb fst refreshData_catch].
      * split; [exact Hp|].
        rewrite (new_events_trans f g _ es
                   [LoadingNext true; HttpGet (url g) (getHeaders deps g)] Hl)
          by (cbn [log emit loadingSubject_next]; now rewrite <- app_assoc).
        rewrite !existsb_app, Hst, Hhg. now split.
      * split; [exact Hp|].
        rewrite (new_events_app f g es Hl). now split.
    + split; [exact Hp|]. rewrite (new_events_app f g es Hl). now split.
Qed.

(** X30: [fetch()] never touches the URL, the refresh interval, the
    [fetchRefreshesWithoutInterval] flag, the polling timer or the stream's
    own state, and it only ever adds to the trace. *)
Theorem fetch_frame f now1 o now2 :
  let f' := fst (fetch deps f now1 o now2) in
  url f' = url f
  /\ refreshInterval f' = refreshInterval f
  /\ fetchRefreshesWithoutInterval f' = fetchRefreshesWithoutInterval f
  /\ pollingTimeout f' = pollingTimeout f
  /\ dataSubject f' = dataSubject f
  /\ exists es, log f' = log f ++ es.
Proof.
  cbn zeta.
  assert (Hlog : exists es, log (fst (fetch deps f now1 o now2)) = log f ++ es).
  { unfold fetch.
    destruct (fetch_begin_cases deps f now1) as [E|[E|E]]; rewrite E; cbn [fst];
      [exists []; now rewrite app_nil_r | exists []; now rewrite app_nil_r |].
    destruct (fetch_resume_inv deps (requesting deps f) o now2) as (es & Hl & _).
    rewrite Hl, log_requesting, <- app_assoc. now eexists. }
  assert (Hfields : let f' := fst (fetch deps f now1 o now2) in
                    url f' = url f
                    /\ refreshInterval f' = refreshInterval f
                    /\ fetchRefreshesWithoutInterval f' = fetchRefreshesWithoutInterval f
                    /\ pollingTimeout f' = pollingTimeout f).
  { unfold fetch.
    destruct (fetch_begin_cases deps f now1) as [E|[E|E]]; rewrite E; cbn [fst];
      [now repeat split | now repeat split |].
    unfold fetch_resume. destruct o as [r|e]; [|now repeat split].
    destruct (negb _ && negb _); [now repeat split|].
    destruct (status r =? _); [now repeat split|].
    destruct (negb (truthy_opt _ _)); [now repeat split|].
    destruct (body r) as [raw|]; [|now repeat split].
    destruct (converter deps raw) as [e|v']; [now repeat split|].
    destruct (match value _ with Some v => negb (isEqual deps v v') | None => true end);
      [|now repeat split].
    unfold dataSubject_next, Rx.next; simpl.
    destruct (Rx.closed (dataSubject f)), (Rx.isStopped (dataSubject f));
      now repeat split. }
  destruct Hfields as (Hu & Hr & Hw & Hp).
  split; [exact Hu|]. split; [exact Hr|]. split; [exact Hw|]. split; [exact Hp|].
  split; [apply fetch_keeps_dataSubject|exact Hlog].
Qed.

End FrameFacts.

Lemma setupPollingTimeout_outcomes_witness :
  let f := fst (fetch Demo.deps Demo.fresh 1000
                  (Demo.response 200 [("ETag", "v1")] (Some "A")) 1001) in
  pollingTimeout (setupPollingTimeout Demo.deps Demo.after_first 2000) = Some 59001
  /\ pollingTimeout (setupPollingTimeout Demo.deps f 2000) = None
  /\ existsb is_HttpGet (new_events f (setupPollingTimeout Demo.deps f 2000)) = false.
Proof.
  destruct (setupPollingTimeout_outcomes Demo.deps Demo.after_first 2000)
    as (Harm & _).
  destruct (setupPollingTimeout_outcomes Demo.deps
              (fst (fetch Demo.deps Demo.fresh 1000
                      (Demo.response 200 [("ETag", "v1")] (Some "A")) 1001)) 2000)
    as (_ & Hnone).
  destruct (Harm 59001 eq_refl) as (Hp & _).
  destruct (Hnone eq_refl) as (Hp' & _ & Hg).
  split; [exact Hp|]. split; [exact Hp'|exact Hg].
Defined.
